(** * The Go target of the RAML client generator

    A shallow embedding of the Go code generator (the module that holds
    [fixCaps], [translateType], [translatePropName], [inferMethodName],
    [generateStruct], the [Request] class and [GoTarget]) and the
    properties of it that the specification states.

    Layout: host-language strings; the API model the parser hands over;
    the source builder; the generator; then the theorems. *)

From Stdlib Require Import String Ascii List Bool Arith ZArith Lia.
Import ListNotations.
Local Open Scope list_scope.
Local Open Scope string_scope.

(* ================================================================== *)
(** * Host-language strings

    A string is a sequence of code units.  The model keeps the strings
    whose units are below 256, one unit per character: every keyword,
    type name and template of the generator is ASCII, case conversion
    acts on [a-z] only, and the white space among these units is tab to
    carriage return, the space and the no-break space (unit 160). *)
(* ================================================================== *)

Module JS.

Definition dq : string := String (ascii_of_nat 34) "".
Definition nl : string := String (ascii_of_nat 10) "".

Definition inRange (lo hi : nat) (c : ascii) : bool :=
  let n := nat_of_ascii c in Nat.leb lo n && Nat.leb n hi.

Definition isLower : ascii -> bool := inRange 97 122.
Definition isUpper : ascii -> bool := inRange 65 90.
Definition isDigit : ascii -> bool := inRange 48 57.

(** The character class [[a-z0-9]] under the [i] flag. *)
Definition isAlnum (c : ascii) : bool := isLower c || isUpper c || isDigit c.

(** White space and line terminators, as [trim] and [Number] skip them:
    tab, line feed, vertical tab, form feed, carriage return, space and
    no-break space. *)
Definition isSpace (c : ascii) : bool :=
  let n := nat_of_ascii c in
  Nat.eqb n 32 || (Nat.leb 9 n && Nat.leb n 13) || Nat.eqb n 160.

(** The characters the regular-expression dot refuses. *)
Definition isLineTerminator (c : ascii) : bool :=
  let n := nat_of_ascii c in Nat.eqb n 10 || Nat.eqb n 13.

Definition toUpperChar (c : ascii) : ascii :=
  if isLower c then ascii_of_nat (nat_of_ascii c - 32) else c.

Fixpoint toUpperCase (s : string) : string :=
  match s with
  | EmptyString => EmptyString
  | String c r => String (toUpperChar c) (toUpperCase r)
  end.

(** [s.slice(a)] and [s.slice(a, b)] for non-negative bounds, and
    [s.slice(0, -k)]. *)
Definition sliceFrom (a : nat) (s : string) : string :=
  substring a (String.length s - a) s.
Definition slice (a b : nat) (s : string) : string :=
  substring a (b - a) s.
Definition sliceDropLast (k : nat) (s : string) : string :=
  substring 0 (String.length s - k) s.

Definition startsWith (p s : string) : bool := prefix p s.

Definition endsWith (p s : string) : bool :=
  Nat.leb (String.length p) (String.length s)
  && String.eqb (sliceFrom (String.length s - String.length p) s) p.

(** [s.indexOf(p) !== -1]. *)
Fixpoint includes (p s : string) : bool :=
  prefix p s ||
  match s with
  | EmptyString => false
  | String _ r => includes p r
  end.

(** [arr.join(sep)]. *)
Definition join (sep : string) (l : list string) : string := String.concat sep l.

(** [s.replace(/needle/g, rep)] for a literal, non-empty needle: scan left
    to right, replace each match and resume after it.  [skip] counts the
    characters of the current match still to be consumed. *)
Fixpoint replaceAllFrom (needle rep : string) (skip : nat) (s : string) : string :=
  match s with
  | EmptyString => EmptyString
  | String c r =>
      match skip with
      | S k => replaceAllFrom needle rep k r
      | O =>
          if prefix needle s
          then rep ++ replaceAllFrom needle rep (String.length needle - 1) r
          else String c (replaceAllFrom needle rep 0 r)
      end
  end.

Definition replaceAll (needle rep s : string) : string :=
  replaceAllFrom needle rep 0 s.

(** [s.replace(needle, rep)] with a string pattern (non-empty) and a
    replacement without dollar signs: only the first occurrence. *)
Fixpoint replaceFirst (needle rep s : string) : string :=
  match s with
  | EmptyString => EmptyString
  | String c r =>
      if prefix needle s
      then rep ++ sliceFrom (String.length needle) s
      else String c (replaceFirst needle rep r)
  end.

(** [s.split(sep)] for a one-character separator. *)
Fixpoint splitOnFrom (sep : ascii) (cur : string) (s : string) : list string :=
  match s with
  | EmptyString => [cur]%list
  | String c r =>
      if Ascii.eqb c sep
      then cur :: splitOnFrom sep "" r
      else splitOnFrom sep (cur ++ String c "") r
  end.

Definition splitOn (sep : ascii) (s : string) : list string := splitOnFrom sep "" s.

(** [s.split(/[^a-z0-9]+/ig)]: the separators are the maximal runs of
    characters outside the class; a leading or trailing run leaves an
    empty first or last piece.  [inSep] says that the previous character
    belonged to a separator. *)
Fixpoint splitNonAlnumFrom (inSep : bool) (cur : string) (s : string) : list string :=
  match s with
  | EmptyString => [cur]%list
  | String c r =>
      if isAlnum c then splitNonAlnumFrom false (cur ++ String c "") r
      else if inSep then splitNonAlnumFrom true cur r
      else cur :: splitNonAlnumFrom true "" r
  end.

Definition splitNonAlnum (s : string) : list string := splitNonAlnumFrom false "" s.

(** [s.replace(/[^a-z0-9]/ig, "")]. *)
Fixpoint stripNonAlnum (s : string) : string :=
  match s with
  | EmptyString => EmptyString
  | String c r => if isAlnum c then String c (stripNonAlnum r) else stripNonAlnum r
  end.

(** [/^\{.+\}$/.test(s)]: an opening brace, at least one character that
    is no line terminator, a closing brace at the very end. *)
Fixpoint noLineTerminator (s : string) : bool :=
  match s with
  | EmptyString => true
  | String c r => negb (isLineTerminator c) && noLineTerminator r
  end.

Definition isBraced (s : string) : bool :=
  Nat.leb 3 (String.length s)
  && startsWith "{" s && endsWith "}" s
  && noLineTerminator (slice 1 (String.length s - 1) s).

(** [s.trim()]. *)
Fixpoint trimStart (s : string) : string :=
  match s with
  | String c r => if isSpace c then trimStart r else s
  | EmptyString => EmptyString
  end.

Fixpoint rev (s : string) : string :=
  match s with
  | EmptyString => EmptyString
  | String c r => rev r ++ String c ""
  end.

Definition trim (s : string) : string := rev (trimStart (rev (trimStart s))).

(** A number as [Number] reads it from a string: NaN, an infinity, or
    the exact value [mantissa * 10 ^ exponent] of the literal (the double
    nearest to it is what the program holds). *)
Inductive number : Type :=
| NaN
| Infinite (negative : bool)
| Finite (mantissa exponent : Z).

(** The value of a digit, letters counting from ten in either case. *)
Definition digitValue (c : ascii) : option Z :=
  let n := nat_of_ascii c in
  if isDigit c then Some (Z.of_nat (n - 48))
  else if inRange 97 102 c then Some (Z.of_nat (n - 87))
  else if inRange 65 70 c then Some (Z.of_nat (n - 55))
  else None.

(** The value of a string made of digits of the radix only. *)
Fixpoint readDigits (radix acc : Z) (s : string) : option Z :=
  match s with
  | EmptyString => Some acc
  | String c r =>
      match digitValue c with
      | Some v =>
          if (v <? radix)%Z then readDigits radix (radix * acc + v)%Z r else None
      | None => None
      end
  end.

Definition readNonEmpty (radix : Z) (s : string) : option Z :=
  match s with
  | EmptyString => None
  | _ => readDigits radix 0%Z s
  end.

(** The longest run of decimal digits at the front, and what follows. *)
Fixpoint spanDigits (s : string) : string * string :=
  match s with
  | EmptyString => (EmptyString, EmptyString)
  | String c r =>
      if isDigit c
      then let (digits, rest) := spanDigits r in (String c digits, rest)
      else (EmptyString, s)
  end.

Definition readSign (s : string) : bool * string :=
  match s with
  | String "+" r => (false, r)
  | String "-" r => (true, r)
  | _ => (false, s)
  end.

Definition signed (negative : bool) (v : Z) : Z :=
  if negative then (- v)%Z else v.

(** The exponent part, up to the end of the string: nothing, or [e] or
    [E] before an optionally signed, non-empty run of digits. *)
Definition readExponent (s : string) : option Z :=
  match s with
  | EmptyString => Some 0%Z
  | String c r =>
      if Ascii.eqb c "e" || Ascii.eqb c "E"
      then let (negative, digits) := readSign r in
           option_map (signed negative) (readNonEmpty 10 digits)
      else None
  end.

(** An unsigned decimal literal: digits, an optional point with optional
    digits after it (a digit on one side at least), an optional exponent.
    The result is the mantissa and the power of ten. *)
Definition readUnsigned (s : string) : option (Z * Z) :=
  let (int, afterInt) := spanDigits s in
  match afterInt with
  | String "." afterPoint =>
      let (frac, afterFrac) := spanDigits afterPoint in
      match (int ++ frac)%string with
      | EmptyString => None
      | digits =>
          match readDigits 10 0%Z digits, readExponent afterFrac with
          | Some m, Some e => Some (m, (e - Z.of_nat (String.length frac))%Z)
          | _, _ => None
          end
      end
  | _ =>
      match readNonEmpty 10 int, readExponent afterInt with
      | Some m, Some e => Some (m, e)
      | _, _ => None
      end
  end.

Definition fromInteger (v : option Z) : number :=
  match v with
  | Some n => Finite n 0
  | None => NaN
  end.

(** [Number(s)]: white space on both sides is skipped; the empty literal
    reads as zero; [0x], [0o] and [0b] (in either case) introduce an
    unsigned integer in radix 16, 8 and 2; anything else is an optionally
    signed [Infinity] or decimal literal; every other string is NaN. *)
Definition Number (s : string) : number :=
  let t := trim s in
  match t with
  | EmptyString => Finite 0 0
  | _ =>
      if prefix "0x" t || prefix "0X" t then fromInteger (readNonEmpty 16 (sliceFrom 2 t))
      else if prefix "0o" t || prefix "0O" t then fromInteger (readNonEmpty 8 (sliceFrom 2 t))
      else if prefix "0b" t || prefix "0B" t then fromInteger (readNonEmpty 2 (sliceFrom 2 t))
      else
        let (negative, u) := readSign t in
        if String.eqb u "Infinity" then Infinite negative
        else match readUnsigned u with
             | Some (m, e) => Finite (signed negative m) e
             | None => NaN
             end
  end.

(** [x < 300].  NaN is below nothing.  The program compares the double
    nearest to the literal's value (ties to even); 300 is a double with an even
    significand and its predecessor is [300 - 2 ^ -44], so exactly the
    values below the midpoint [300 - 2 ^ -45] round to a double below
    300 (the midpoint itself goes to 300, values too large for a double
    to positive infinity). *)
Definition below300 (x : number) : bool :=
  match x with
  | NaN => false
  | Infinite negative => negative
  | Finite m e =>
      let midpoint := (300 * 2 ^ 45 - 1)%Z in
      if (0 <=? e)%Z
      then (m * 10 ^ e * 2 ^ 45 <? midpoint)%Z
      else (m * 2 ^ 45 <? midpoint * 10 ^ (- e))%Z
  end.

End JS.

(* ================================================================== *)
(** * Names and types: the pure helpers of the generator *)
(* ================================================================== *)

(** Uppercases the first character in the string. *)
Definition upperFirst (str : string) : string :=
  JS.toUpperCase (JS.slice 0 1 str) ++ JS.sliceFrom 1 str.

(** The terms whose cased versions are treated specially, in order. *)
Definition capitalizations : list (string * string) :=
  [ ("Id", "ID"); ("Oauth", "OAuth") ].

Definition fixCaps (str : string) : string :=
  fold_left (fun str cap => JS.replaceAll (fst cap) (snd cap) str) capitalizations str.

(** The static table of [translateTypeString]; [None] is the fall
    through of the switch. *)
Definition scalarTable (str : string) : option string :=
  if String.eqb str "string" then Some "string"
  else if String.eqb str "integer" then Some "int"
  else if String.eqb str "number" then Some "int"
  else if String.eqb str "uint" then Some "uint"
  else if String.eqb str "boolean" then Some "bool"
  else if String.eqb str "object" then Some "map[string]interface{}"
  else if String.eqb str "file" then Some "io.Reader"
  else if String.eqb str "IsoDate" then Some "time.Time"
  else if String.eqb str "UnixTimestampMillis" then Some "time.Time"
  else None.

(** Returns the Go type for a RAML type string.  The source recurses on
    [str.slice(0, -2)]; [fuel] bounds the depth and the string's length
    is always enough (see [translateTypeString_unfold]). *)
Fixpoint translateTypeStringFuel (fuel : nat) (str : string) : string :=
  let rest :=
    if JS.includes "|" str then "interface{}"
    else match scalarTable str with
         | Some go => go
         | None => str
         end in
  match fuel with
  | O => rest
  | S fuel' =>
      if JS.endsWith "[]" str
      then "[]" ++ translateTypeStringFuel fuel' (JS.sliceDropLast 2 str)
      else rest
  end.

Definition translateTypeString (str : string) : string :=
  translateTypeStringFuel (String.length str) str.

(* ================================================================== *)
(** * The API model

    The object graph the RAML parser hands to the generator, read
    through its accessors.  A list accessor may be empty and an object
    accessor may be absent: the generator indexes and dereferences them
    unchecked, so the model keeps both possibilities. *)
(* ================================================================== *)

(** A type declaration.  [properties] is [None] for a declaration that
    has no [properties] member (it is no object type) and [items] is
    [None] when the declaration offers no item type.  [displayName] of a
    body is its media type. *)
#[warnings="-register-all"] Inductive TypeDeclaration : Type := mkType {
  name : string;
  displayName : option string;
  type_ : list string;
  required : bool;
  items : option TypeDeclaration;
  properties : option (list TypeDeclaration)
}.

Record Response : Type := mkResponse {
  code : string;
  r_body : list TypeDeclaration
}.

Record Trait : Type := mkTrait {
  t_queryParameters : list TypeDeclaration;
  t_body : list TypeDeclaration
}.

Record Method : Type := mkMethod {
  m_displayName : option string;
  method_ : string;
  m_queryParameters : list TypeDeclaration;
  m_body : list TypeDeclaration;
  is_ : list Trait;
  responses : list Response
}.

#[warnings="-register-all"] Inductive Resource : Type := mkResource {
  absoluteUri : string;
  absoluteUriParameters : list TypeDeclaration;
  methods : list Method;
  resources : list Resource
}.

Record Api : Type := mkApi {
  types : list TypeDeclaration;
  a_resources : list Resource
}.

(* ================================================================== *)
(** * Outcomes

    A call of the generator returns, throws (indexing past the end of a
    list yields the undefined value, and calling a method on it or on a
    missing object is a type error) or, for the one unbounded recursion,
    is cut off by the fuel of the model. *)
(* ================================================================== *)

Inductive exn : Type := TypeError.

Inductive outcome (A : Type) : Type :=
| Returned (a : A)
| Thrown (e : exn)
| OutOfFuel.

Arguments Returned {A} a.
Arguments Thrown {A} e.
Arguments OutOfFuel {A}.

Definition obind {A B : Type} (x : outcome A) (k : A -> outcome B) : outcome B :=
  match x with
  | Returned a => k a
  | Thrown e => Thrown e
  | OutOfFuel => OutOfFuel
  end.

(* ================================================================== *)
(** * Declarations, names and responses *)
(* ================================================================== *)

(** Returns the Go type for a RAML type declaration.  It throws where
    the source calls a method on the undefined value: no first type, or
    an array without items or whose items have no first type. *)
Definition translateType (type : TypeDeclaration) : outcome string :=
  let out := if required type then "" else "*" in
  match type_ type with
  | [] => Thrown TypeError
  | primary :: _ =>
      if String.eqb primary "array" then
        match items type with
        | None => Thrown TypeError
        | Some it =>
            match type_ it with
            | [] => Thrown TypeError
            | primary' :: _ => Returned (fixCaps ((out ++ "[]") ++ translateTypeString primary'))
            end
        end
      else Returned (fixCaps (out ++ translateTypeString primary))
  end.

(** [arr.map((str, i) => (i > 0 || isExported) ? upperFirst(str) : str)]. *)
Definition capitalizeSegments (isExported : bool) (segs : list string) : list string :=
  match segs with
  | [] => []
  | s0 :: rest => (if isExported then upperFirst s0 else s0) :: map upperFirst rest
  end.

(** Returns the internal, Go name for a JavaScript property. *)
Definition capitalized (name : string) (isExported : bool) : string :=
  JS.join "" (capitalizeSegments isExported (JS.splitNonAlnum name)).

Definition translatePropName (name : string) (isExported : bool) : string :=
  let name := capitalized name isExported in
  let name := if String.eqb name "type" then "kind" else name in
  fixCaps name.

(** Finds the successful response for a method. *)
Definition isSuccess (res : Response) : bool := JS.below300 (JS.Number (code res)).

Definition getSuccessfulResponse (method : Method) : option Response :=
  find isSuccess (responses method).

(** [parts[parts.length - 1] = primary]: on an empty array the
    assignment creates a property that [join] does not see. *)
Definition setLast (parts : list string) (primary : string) : list string :=
  match parts with
  | [] => []
  | _ => removelast parts ++ [primary]
  end%list.

(** [sr && sr.body().length && sr.body()[0].type()[0]], kept when it is
    a non-empty string. *)
Definition primaryResponseType (sr : option Response) : option string :=
  match sr with
  | None => None
  | Some sr =>
      match r_body sr with
      | [] => None
      | b :: _ =>
          match type_ b with
          | [] => None
          | EmptyString :: _ => None
          | p :: _ => Some p
          end
      end
  end.

(** [primary[0].toUpperCase() === primary[0]]. *)
Definition startsUpper (primary : string) : bool :=
  String.eqb (JS.toUpperCase (JS.slice 0 1 primary)) (JS.slice 0 1 primary).

(** Generates a method name to query the method on the specified
    resource. *)
Definition inferMethodName (resource : Resource) (method : Method) : string :=
  match m_displayName method with
  | Some n => n
  | None =>
      let parts :=
        skipn 5 (map upperFirst
                   (filter (fun seg => negb (JS.isBraced seg))
                           (JS.splitOn "/" (absoluteUri resource)))) in
      let parts :=
        match primaryResponseType (getSuccessfulResponse method) with
        | Some primary => if startsUpper primary then setLast parts primary else parts
        | None => parts
        end in
      let tail := fixCaps (JS.stripNonAlnum (JS.join "" parts)) in
      let verb := method_ method in
      if String.eqb verb "get" then "Get" ++ tail
      else if String.eqb verb "post" then "Create" ++ tail
      else if String.eqb verb "put" then "Update" ++ tail
      else if String.eqb verb "patch" then "Update" ++ tail
      else if String.eqb verb "delete" then "Delete" ++ tail
      else "UNKNOWN"
  end.

(* ================================================================== *)
(** * The source builder

    The builder classes ([Module], [File], [Struct], [Func], [Arg],
    [Call]) live in the [lang] module, which is not among the sources at
    hand; the generator only calls them.  They are modelled from the
    specification's contract of the builder. *)
(* ================================================================== *)

(** Modelled from the spec: a struct field, (identifier, type string,
    serialization tag); the tag is absent when the caller passes none. *)
Record Field : Type := mkField {
  f_name : string;
  f_type : string;
  f_tag : option string
}.

(** Modelled from the spec: StructDefinition, a name and its ordered
    fields. *)
Record Struct : Type := mkStruct {
  s_name : string;
  s_fields : list Field
}.

(** Modelled from the spec: a function argument, (name, type). *)
Record Arg : Type := mkArg {
  arg_name : string;
  arg_type : string
}.

(** Modelled from the spec: a call expression under construction; how it
    prints is left to [Call_toString] below. *)
Record Call : Type := mkCall {
  callee : string;
  call_args : list Arg
}.

(** Modelled from the spec: FunctionDefinition, name, optional receiver,
    ordered arguments, ordered return types, ordered body segments. *)
Record Func : Type := mkFunc {
  fn_name : string;
  fn_receiver : option string;
  fn_args : list Arg;
  fn_returns : list string;
  fn_body : list string
}.

(** Modelled from the spec: File, a deduplicated import set, the structs
    by name in declaration order and the ordered functions. *)
Record File : Type := mkFile {
  imports : list string;
  structs : list Struct;
  funcs : list Func
}.

(** Modelled from the spec: Module, the files by path and the identifier
    registry shared by all of them. *)
Record GoModule : Type := mkModule {
  identifiers : list string;
  files : list (string * File)
}.

Definition emptyFile : File := mkFile [] [] [].
Definition emptyModule : GoModule := mkModule [] [].

Definition mem (x : string) (l : list string) : bool := existsb (String.eqb x) l.

Fixpoint lookupFile (path : string) (fs : list (string * File)) : option File :=
  match fs with
  | [] => None
  | (p, f) :: rest => if String.eqb p path then Some f else lookupFile path rest
  end.

Fixpoint storeFile (path : string) (f : File) (fs : list (string * File))
  : list (string * File) :=
  match fs with
  | [] => [(path, f)]
  | (p, g) :: rest =>
      if String.eqb p path then (p, f) :: rest else (p, g) :: storeFile path f rest
  end.

(** Modelled from the spec: obtain-or-create a File by path. *)
Definition Module_file (path : string) (m : GoModule) : File :=
  match lookupFile path (files m) with
  | Some f => f
  | None => emptyFile
  end.

Definition withFile (path : string) (g : File -> File) (m : GoModule) : GoModule :=
  mkModule (identifiers m) (storeFile path (g (Module_file path m)) (files m)).

(** Modelled from the spec: whether the registry knows the identifier. *)
Definition Module_getIdentifier (ident : string) (m : GoModule) : bool :=
  mem ident (identifiers m).

Definition register (ident : string) (m : GoModule) : GoModule :=
  if mem ident (identifiers m) then m
  else mkModule (identifiers m ++ [ident])%list (files m).

(** Modelled from the spec: register an import, idempotent. *)
Definition File_import (path imp : string) : GoModule -> GoModule :=
  withFile path (fun f =>
    if mem imp (imports f) then f
    else mkFile (imports f ++ [imp])%list (structs f) (funcs f)).

Definition hasStruct (sname : string) (f : File) : bool :=
  existsb (fun s => String.eqb (s_name s) sname) (structs f).

Definition hasFunc (fname : string) (f : File) : bool :=
  existsb (fun fn => String.eqb (fn_name fn) fname) (funcs f).

(** Modelled from the spec: obtain-or-create a Struct by name within a
    File; a second request for an existing name returns the same
    definition.  A new struct enters the identifier registry. *)
Definition File_struct (path sname : string) (m : GoModule) : GoModule :=
  if hasStruct sname (Module_file path m) then m
  else register sname
         (withFile path (fun f =>
            mkFile (imports f) (structs f ++ [mkStruct sname []])%list (funcs f)) m).

(** Modelled from the spec: append a field to a Struct, no dedup. *)
Definition Struct_field (path sname : string) (fld : Field) : GoModule -> GoModule :=
  withFile path (fun f =>
    mkFile (imports f)
           (map (fun s => if String.eqb (s_name s) sname
                          then mkStruct (s_name s) (s_fields s ++ [fld])%list else s)
                (structs f))
           (funcs f)).

(** Modelled from the spec: obtain-or-create a Function by name. *)
Definition File_func (path fname : string) (m : GoModule) : GoModule :=
  if hasFunc fname (Module_file path m) then m
  else register fname
         (withFile path (fun f =>
            mkFile (imports f) (structs f) (funcs f ++ [mkFunc fname None [] [] []])%list) m).

Definition withFunc (path fname : string) (g : Func -> Func) : GoModule -> GoModule :=
  withFile path (fun f =>
    mkFile (imports f) (structs f)
           (map (fun fn => if String.eqb (fn_name fn) fname then g fn else fn) (funcs f))).

(** Modelled from the spec: set the receiver. *)
Definition Func_methodOf (path fname recv : string) : GoModule -> GoModule :=
  withFunc path fname (fun fn =>
    mkFunc (fn_name fn) (Some recv) (fn_args fn) (fn_returns fn) (fn_body fn)).

(** Modelled from the spec: append arguments in call order. *)
Definition Func_addArgs (path fname : string) (l : list Arg) : GoModule -> GoModule :=
  withFunc path fname (fun fn =>
    mkFunc (fn_name fn) (fn_receiver fn) (fn_args fn ++ l)%list (fn_returns fn) (fn_body fn)).

(** Modelled from the spec: append one argument. *)
Definition Func_arg (path fname aname atype : string) : GoModule -> GoModule :=
  Func_addArgs path fname [mkArg aname atype].

(** Modelled from the spec: append return types in call order. *)
Definition Func_returns (path fname ty : string) : GoModule -> GoModule :=
  withFunc path fname (fun fn =>
    mkFunc (fn_name fn) (fn_receiver fn) (fn_args fn) (fn_returns fn ++ [ty])%list (fn_body fn)).

(** Modelled from the spec: append free-form body text. *)
Definition Func_write (path fname text : string) : GoModule -> GoModule :=
  withFunc path fname (fun fn =>
    mkFunc (fn_name fn) (fn_receiver fn) (fn_args fn) (fn_returns fn) (fn_body fn ++ [text])%list).

Definition findStruct (path sname : string) (m : GoModule) : option Struct :=
  find (fun s => String.eqb (s_name s) sname) (structs (Module_file path m)).

Definition findFunc (path fname : string) (m : GoModule) : option Func :=
  find (fun fn => String.eqb (fn_name fn) fname) (funcs (Module_file path m)).

(** The write collector of the [util] module: the written pieces in
    order, concatenated by [toString]. *)
Definition WriteCollector : Type := list string.
Definition WriteCollector_write (data : string) (w : WriteCollector) : WriteCollector :=
  (w ++ [data])%list.
Definition WriteCollector_toString (w : WriteCollector) : string := JS.join "" w.

(* ================================================================== *)
(** * Generator state

    The module under construction, the lines sent to the error console,
    and the fields of the current [Request]: the name of the function
    under construction (the function itself lives in the file, so two
    methods that infer one name write to one function) and the three
    collectors.  [method] sets the four fields before it reads them. *)
(* ================================================================== *)

Record State : Type := mkState {
  gomodule : GoModule;
  console : list (string * TypeDeclaration);
  func : string;
  options : WriteCollector;
  before : WriteCollector;
  after : WriteCollector
}.

Definition initialState (m : GoModule) : State := mkState m [] "" [] [] [].

Definition Gen (A : Type) : Type := State -> outcome (A * State).

Definition ret {A : Type} (a : A) : Gen A := fun st => Returned (a, st).

Definition bind {A B : Type} (c : Gen A) (k : A -> Gen B) : Gen B :=
  fun st =>
    match c st with
    | Returned (a, st') => k a st'
    | Thrown e => Thrown e
    | OutOfFuel => OutOfFuel
    end.

Definition lift {A : Type} (x : outcome A) : Gen A :=
  fun st => obind x (fun a => Returned (a, st)).

Declare Scope gen_scope.
Delimit Scope gen_scope with gen.
Notation "x <- c ;; k" := (bind c (fun x => k))
  (at level 61, c at next level, right associativity) : gen_scope.
Notation "c ;; k" := (bind c (fun _ => k))
  (at level 61, right associativity) : gen_scope.
Local Open Scope gen_scope.

Definition onModule (g : GoModule -> GoModule) : Gen unit :=
  fun st => Returned (tt, mkState (g (gomodule st)) (console st) (func st)
                                  (options st) (before st) (after st)).

Definition console_error (msg : string) (obj : TypeDeclaration) : Gen unit :=
  fun st => Returned (tt, mkState (gomodule st) (console st ++ [(msg, obj)])%list (func st)
                                  (options st) (before st) (after st)).

Definition setFunc (fname : string) : Gen unit :=
  fun st => Returned (tt, mkState (gomodule st) (console st) fname
                                  (options st) (before st) (after st)).

Definition resetCollectors : Gen unit :=
  fun st => Returned (tt, mkState (gomodule st) (console st) (func st) [] [] []).

Definition options_write (data : string) : Gen unit :=
  fun st => Returned (tt, mkState (gomodule st) (console st) (func st)
                                  (WriteCollector_write data (options st))
                                  (before st) (after st)).

Definition before_write (data : string) : Gen unit :=
  fun st => Returned (tt, mkState (gomodule st) (console st) (func st)
                                  (options st)
                                  (WriteCollector_write data (before st)) (after st)).

Definition after_write (data : string) : Gen unit :=
  fun st => Returned (tt, mkState (gomodule st) (console st) (func st)
                                  (options st) (before st)
                                  (WriteCollector_write data (after st))).

Definition getState : Gen State := fun st => Returned (st, st).

(** [arr.forEach(f)]. *)
Fixpoint forEach {A : Type} (l : list A) (f : A -> Gen unit) : Gen unit :=
  match l with
  | [] => ret tt
  | x :: rest => f x ;; forEach rest f
  end.

(** [arr.map(f)] for an [f] that may throw. *)
Fixpoint mapOutcome {A B : Type} (f : A -> outcome B) (l : list A) : outcome (list B) :=
  match l with
  | [] => Returned []
  | x :: rest =>
      obind (f x) (fun y => obind (mapOutcome f rest) (fun ys => Returned (y :: ys)))
  end.

(** [arr[0]] handed to a function that calls a method on it. *)
Definition firstOrThrow (l : list string) : outcome string :=
  match l with
  | [] => Thrown TypeError
  | x :: _ => Returned x
  end.

(* ================================================================== *)
(** * Struct generation *)
(* ================================================================== *)

(** The inner function [gen] of [generateStruct]: the fields of the
    declared properties, then the same for every supertype found by
    name among the API's types.  Nothing bounds the recursion in the
    source; here [fuel] does, and [OutOfFuel] reports that the bound
    was hit. *)
Fixpoint gen (fuel : nat) (file : string) (api : Api) (struct : string)
         (type : TypeDeclaration) : Gen unit :=
  match fuel with
  | O => fun _ => OutOfFuel
  | S fuel' =>
      match properties type with
      | None => ret tt
      | Some props =>
          forEach props (fun prop =>
            ty <- lift (translateType prop) ;;
            onModule (Struct_field file struct
                        (mkField (translatePropName (name prop) true) ty
                                 (Some ("json:" ++ JS.dq ++ name prop ++ JS.dq))))) ;;
          forEach (type_ type) (fun subtype =>
            match find (fun t => String.eqb (name t) subtype) (types api) with
            | Some t => gen fuel' file api struct t
            | None => ret tt
            end)
      end
  end.

(** Writes a struct containing the specified list of types. *)
Definition generateStruct (fuel : nat) (file : string) (api : Api) (name : string)
           (type : TypeDeclaration) : Gen unit :=
  onModule (File_struct file name) ;;
  gen fuel file api name type.

(* ================================================================== *)
(** * The Request class

    [file] and [resource] are the constructor's fields; they never
    change and are passed along.  [api] is [method.ownerApi()]. *)
(* ================================================================== *)

(** Returns the arguments used to format the path. *)
Definition getPathFmtArgs (resource : Resource) : outcome (list Arg) :=
  mapOutcome
    (fun param =>
       obind (translateType param) (fun ty =>
         Returned (mkArg (translatePropName (name param) false) ty)))
    (skipn 1 (absoluteUriParameters resource)).

(** [param.type()[0] === "number" ? "%d" : "%s"]. *)
Definition placeholder (param : TypeDeclaration) : string :=
  match type_ param with
  | primary :: _ => if String.eqb primary "number" then "%d" else "%s"
  | [] => "%s"
  end.

(** The loop of [getPathFmtCall] over the parameters after the first. *)
Definition pathFormat (resource : Resource) : string :=
  fold_left
    (fun uri param => JS.replaceFirst ("{" ++ name param ++ "}") (placeholder param) uri)
    (skipn 1 (absoluteUriParameters resource))
    (JS.replaceFirst "{version}" "1" (absoluteUri resource)).

(** The query parameters of a method and of the traits applied to it. *)
Definition allQueryParameters (method : Method) : list TypeDeclaration :=
  fold_left (fun params trait => (params ++ t_queryParameters trait)%list)
            (is_ method) (m_queryParameters method).

(** The first body of a method or of the traits applied to it. *)
Definition firstBody (method : Method) : option TypeDeclaration :=
  hd_error (fold_left (fun params trait => (params ++ t_body trait)%list)
                      (is_ method) (m_body method)).

Definition marshalPayload : string :=
  JS.nl ++
  "                body, err := json.Marshal(payload)" ++ JS.nl ++
  "                if err != nil {" ++ JS.nl ++
  "                    return err" ++ JS.nl ++
  "                }" ++ JS.nl ++
  "            ".

Definition jsonBodyOptions : string :=
  JS.nl ++
  "                Body: bytes.NewReader(body)," ++ JS.nl ++
  "                ContentLength: len(body)," ++ JS.nl ++
  "                Header: http.Header{" ++ JS.dq ++ "Content-Type" ++ JS.dq ++ ": {"
    ++ JS.dq ++ "application/json" ++ JS.dq ++ "}}," ++ JS.nl ++
  "            ".

(** A string that may be undefined, in a condition and in a template. *)
Definition truthy (x : option string) : bool :=
  match x with
  | Some s => negb (String.eqb s "")
  | None => false
  end.

Definition interpolate (x : option string) : string :=
  match x with
  | Some s => s
  | None => "undefined"
  end.

(** The text [generateFuncReturns] writes when a successful response
    exists. *)
Definition decodeResponse (resType : option string) : string :=
  JS.nl ++
  "            if err != nil || res.StatusCode >= 300 {" ++ JS.nl ++
  "                return res, " ++ (if truthy resType then "nil, " else "") ++ "err" ++ JS.nl ++
  "            }" ++ JS.nl ++
  JS.nl ++
  "            var typ " ++ interpolate resType ++ JS.nl ++
  "            if err := json.NewDecoder(res.Body).Decode(&typ); err != nil {" ++ JS.nl ++
  "                return err" ++ JS.nl ++
  "            }" ++ JS.nl ++
  JS.nl ++
  "            return res, typ, nil" ++ JS.nl ++
  "        ".

(** The text [generateFuncReturns] writes when there is none. *)
Definition plainReturn : string := "return res, err" ++ JS.nl.

(** The text [generateQueryParams] writes when there is no parameter. *)
Definition emptyQuery : string := "q := " ++ JS.dq ++ JS.dq ++ JS.nl.

(** Adds query parameter initializations to the current request, if
    needed. *)
Definition generateQueryParams (file : string) (method : Method) : Gen unit :=
  let queryParams := allQueryParameters method in
  match queryParams with
  | [] => before_write emptyQuery
  | _ =>
      onModule (File_import file "net/url") ;;
      st <- getState ;;
      let type := func st ++ "Params" in
      onModule (File_struct file type) ;;
      onModule (Func_arg file (func st) "query" type) ;;
      before_write ("v := url.Values{}" ++ JS.nl) ;;
      forEach queryParams (fun prop =>
        let propName := translatePropName (name prop) true in
        primary <- lift (firstOrThrow (type_ prop)) ;;
        onModule (Struct_field file type
                    (mkField propName (translateTypeString primary) None)) ;;
        before_write ("v.Set(" ++ JS.dq ++ name prop ++ JS.dq ++ ", query." ++ propName
                      ++ ")" ++ JS.nl)) ;;
      before_write ("q := " ++ JS.dq ++ "?" ++ JS.dq ++ " + v.Encode()" ++ JS.nl)
  end.

(** The body step of a request.  A JSON body gets a payload argument and
    its serialization; a multipart body is left for later (nothing is
    done); any other kind is reported on the error console. *)
Definition generateBodyParams (fuel : nat) (file : string) (api : Api)
           (method : Method) : Gen unit :=
  match firstBody method with
  | None => ret tt
  | Some body =>
      match displayName body with
      | Some kind =>
          if String.eqb kind "application/json" then
            primary <- lift (firstOrThrow (type_ body)) ;;
            st <- getState ;;
            let translated := translateTypeString primary in
            type <-
              (if Module_getIdentifier translated (gomodule st)
               then ret translated
               else
                 let type := func st ++ "Payload" in
                 generateStruct fuel file api type body ;;
                 ret type) ;;
            onModule (Func_arg file (func st) "payload" type) ;;
            onModule (File_import file "bytes") ;;
            onModule (File_import file "encoding/json") ;;
            before_write marshalPayload ;;
            options_write jsonBodyOptions
          else if String.eqb kind "multipart/form-data" then ret tt
          else console_error "Unknown body type:" body
      | None => console_error "Unknown body type:" body
      end
  end.

(** Generates the post-request serialization and return values for the
    function under construction. *)
Definition generateFuncReturns (file : string) (method : Method) : Gen unit :=
  let goodRes := getSuccessfulResponse method in
  st <- getState ;;
  onModule (Func_returns file (func st) "*http.Response") ;;
  resType <-
    match goodRes with
    | Some res =>
        match r_body res with
        | b :: _ =>
            ty <- lift (translateType b) ;;
            onModule (Func_returns file (func st) ty) ;;
            ret (Some ty)
        | [] => ret None
        end
    | None => ret None
    end ;;
  onModule (Func_returns file (func st) "error") ;;
  match goodRes with
  | None => after_write plainReturn
  | Some _ => after_write (decodeResponse resType)
  end.

Section Rendering.

(** How a [Call] prints is part of the builder, not of the generator:
    the generator's text is stated for any printer. *)
Variable Call_toString : Call -> string.

(** Returns the expression that formats the path to query. *)
Definition getPathFmtCall (file : string) (resource : Resource) : Gen string :=
  let uri := JS.replaceFirst "{version}" "1" (absoluteUri resource) in
  args <- lift (getPathFmtArgs resource) ;;
  match args with
  | [] => ret (JS.dq ++ uri ++ JS.dq ++ " + q")
  | _ =>
      onModule (File_import file "fmt") ;;
      let uri := pathFormat resource in
      let args := mkArg (JS.dq ++ uri ++ JS.dq) "string" :: args in
      ret (JS.trim (Call_toString (mkCall "fmt.Sprintf" args)) ++ " + q")
  end.

(** Adds a method to query the endpoint on the resource to the
    associated file. *)
Definition method (fuel : nat) (file : string) (api : Api) (resource : Resource)
           (m : Method) : Gen unit :=
  onModule (File_import file "net/http") ;;
  let fname := inferMethodName resource m in
  onModule (File_func file fname) ;;
  setFunc fname ;;
  onModule (Func_methodOf file fname "c *Client") ;;
  args <- lift (getPathFmtArgs resource) ;;
  onModule (Func_addArgs file fname args) ;;
  resetCollectors ;;
  generateQueryParams file m ;;
  generateBodyParams fuel file api m ;;
  generateFuncReturns file m ;;
  st <- getState ;;
  url <- getPathFmtCall file resource ;;
  onModule (Func_write file fname
    (JS.nl ++
     "            " ++ WriteCollector_toString (before st) ++ JS.nl ++
     "            res, err := c.do(&http.Request{" ++ JS.nl ++
     "                Method: " ++ JS.dq ++ method_ m ++ JS.dq ++ "," ++ JS.nl ++
     "                URL: " ++ url ++ "," ++ JS.nl ++
     "                " ++ WriteCollector_toString (options st) ++ JS.nl ++
     "            })" ++ JS.nl ++
     "            " ++ WriteCollector_toString (after st) ++ JS.nl ++
     "        ")).

(** [generateMethods] of [GoTarget.createEndpoints]: every method of the
    resource, then the same for its sub-resources. *)
Fixpoint generateMethods (fuel : nat) (file : string) (api : Api)
         (resource : Resource) : Gen unit :=
  match resource with
  | mkResource _ _ ms subs =>
      forEach ms (method fuel file api resource) ;;
      (fix each (rs : list Resource) : Gen unit :=
         match rs with
         | [] => ret tt
         | r :: rest => generateMethods fuel file api r ;; each rest
         end) subs
  end.

Definition createEndpoints (fuel : nat) (api : Api) (file : string) : Gen unit :=
  forEach (a_resources api) (generateMethods fuel file api).

End Rendering.

Definition createModels (fuel : nat) (api : Api) (file : string) : Gen unit :=
  forEach (types api) (fun type =>
    match properties type with
    | None => ret tt
    | Some _ => generateStruct fuel file api (name type) type
    end).

(* ================================================================== *)
(** * The inline endpoint generator

    The module of the sources in which [GoTarget.createEndpoints] builds
    every function itself, without a [Request] class.  Its helpers are
    methods of [GoTarget]; [upperFirst], [fixCaps] and
    [translatePropName] read as above.  The state fields of a [Request]
    are not used here. *)
(* ================================================================== *)

Module Inline.

Definition scalarTable (str : string) : option string :=
  if String.eqb str "string" then Some "string"
  else if String.eqb str "integer" then Some "int"
  else if String.eqb str "number" then Some "int"
  else if String.eqb str "uint" then Some "uint"
  else if String.eqb str "boolean" then Some "bool"
  else if String.eqb str "object" then Some "map[string]interface{}"
  else if String.eqb str "IsoDate" then Some "time.Time"
  else if String.eqb str "UnixTimestampMillis" then Some "time.Time"
  else None.

Fixpoint translateTypeStringFuel (fuel : nat) (str : string) : string :=
  let rest :=
    if JS.includes "|" str then "interface{}"
    else match scalarTable str with
         | Some go => go
         | None => str
         end in
  match fuel with
  | O => rest
  | S fuel' =>
      if JS.endsWith "[]" str
      then "[]" ++ translateTypeStringFuel fuel' (JS.sliceDropLast 2 str)
      else rest
  end.

Definition translateTypeString (str : string) : string :=
  translateTypeStringFuel (String.length str) str.

Definition translateType (type : TypeDeclaration) : outcome string :=
  let out := if required type then "" else "*" in
  match type_ type with
  | [] => Thrown TypeError
  | primary :: _ =>
      if String.eqb primary "array" then
        match items type with
        | None => Thrown TypeError
        | Some it =>
            match type_ it with
            | [] => Thrown TypeError
            | primary' :: _ => Returned (fixCaps ((out ++ "[]") ++ translateTypeString primary'))
            end
        end
      else Returned (fixCaps (out ++ translateTypeString primary))
  end.

Definition inferMethodName (resource : Resource) (method : Method) : string :=
  match m_displayName method with
  | Some n => n
  | None =>
      let parts :=
        fixCaps (JS.stripNonAlnum (JS.join ""
          (skipn 5 (map upperFirst
                      (filter (fun seg => negb (JS.isBraced seg))
                              (JS.splitOn "/" (absoluteUri resource))))))) in
      let verb := method_ method in
      if String.eqb verb "get" then "Get" ++ parts
      else if String.eqb verb "post" then "Create" ++ parts
      else if String.eqb verb "put" then "Update" ++ parts
      else if String.eqb verb "patch" then "Update" ++ parts
      else if String.eqb verb "delete" then "Delete" ++ parts
      else "UNKNOWN"
  end.

Inductive ReqStructKind : Type := Payload | Params.

(** An array in a condition: it is an object, and every object counts as
    true, the empty array too. *)
Definition arrayTruthy {A : Type} (l : list A) : bool := true.

(** The struct of a payload or of the query parameters: the registered
    identifier of the first declaration when there is one, else a struct
    of the given name with a field per declaration. *)
Definition generateReqStruct (file : string) (structName : string) (kind : ReqStructKind)
           (types : list TypeDeclaration) : Gen string :=
  st <- getState ;;
  let primary :=
    match types with
    | t :: _ => if String.eqb (name t) "" then None else Some (name t)
    | [] => None
    end in
  let known :=
    match primary with
    | Some p => if Module_getIdentifier (translateTypeString p) (gomodule st)
                then Some (translateTypeString p) else None
    | None => None
    end in
  match known with
  | Some convert => ret convert
  | None =>
      onModule (File_struct file structName) ;;
      forEach types (fun prop =>
        primary <- lift (firstOrThrow (type_ prop)) ;;
        onModule (Struct_field file structName
                    (mkField (translatePropName (name prop) true)
                             (translateTypeString primary)
                             (Some ((match kind with Params => "url" | Payload => "json" end)
                                    ++ ":" ++ JS.dq ++ name prop ++ JS.dq))))) ;;
      ret structName
  end.

(** The first loop of [generateMethods]: the format string with its
    arguments and the arguments of every method of the resource. *)
Definition pathParams (resource : Resource) : outcome (list string * list Arg) :=
  fold_left
    (fun acc param =>
       obind acc (fun '(fmtParams, methodArgs) =>
         let argName := translatePropName (name param) false in
         let fmt0 :=
           JS.replaceFirst ("{" ++ name param ++ "}")
             (match type_ param with
              | primary :: _ => if String.eqb primary "number" then "%d" else "%s"
              | [] => "%s"
              end)
             (hd "" fmtParams) in
         obind (translateType param) (fun ty =>
           Returned ((fmt0 :: tl fmtParams) ++ [argName],
                     methodArgs ++ [mkArg argName ty])%list)))
    (skipn 1 (absoluteUriParameters resource))
    (Returned ([JS.dq ++ JS.replaceFirst "{version}" "1" (absoluteUri resource) ++ JS.dq],
               [])).

Definition requestHead (verb : string) (fmtParams : list string) : string :=
  "Method: " ++ JS.dq ++ verb ++ JS.dq ++ "," ++ JS.nl ++
  "                    URL: fmt.Sprintf(" ++ JS.join ", " fmtParams ++ ") + "
    ++ JS.dq ++ "?" ++ JS.dq ++ " + q," ++ JS.nl ++
  "                ".

Definition requestBody : string :=
  "Body: bytes.NewReader(body)," ++ JS.nl ++
  "                        ContentLength: len(body)," ++ JS.nl ++
  "                        Header: http.Header{" ++ JS.nl ++
  "                            " ++ JS.dq ++ "Content-Type" ++ JS.dq ++ ": {"
    ++ JS.dq ++ "application/json" ++ JS.dq ++ "}," ++ JS.nl ++
  "                        }," ++ JS.nl ++
  "                    ".

Definition marshalPayload : string :=
  JS.nl ++
  "                        body, err := json.Marshal(payload)" ++ JS.nl ++
  "                        if err != nil {" ++ JS.nl ++
  "                            return err" ++ JS.nl ++
  "                        }" ++ JS.nl ++
  "                    ".

Definition encodeQuery : string :=
  JS.nl ++
  "                        q, err := query.Values(params)" ++ JS.nl ++
  "                        if err != nil {" ++ JS.nl ++
  "                            return err" ++ JS.nl ++
  "                        }" ++ JS.nl ++
  "                    ".

Definition emptyQuery : string :=
  JS.nl ++
  "                        q := " ++ JS.dq ++ JS.dq ++ JS.nl ++
  "                    ".

Definition doRequest (request : string) : string :=
  JS.nl ++
  "                    res, err := c.do(&http.Request{" ++ request ++ "})" ++ JS.nl ++
  "                ".

Definition decodeResponse (resType : string) : string :=
  JS.nl ++
  "                        if err != nil || res.StatusCode >= 300 {" ++ JS.nl ++
  "                            return res, "
    ++ (if truthy (Some resType) then "nil, " else "") ++ "err" ++ JS.nl ++
  "                        }" ++ JS.nl ++
  JS.nl ++
  "                        var typ " ++ resType ++ JS.nl ++
  "                        if err := json.NewDecoder(res.Body).Decode(&typ); err != nil {"
    ++ JS.nl ++
  "                            return err" ++ JS.nl ++
  "                        }" ++ JS.nl ++
  JS.nl ++
  "                        return res, typ, nil" ++ JS.nl ++
  "                    ".

Definition plainReturn : string :=
  JS.nl ++
  "                        return res, err" ++ JS.nl ++
  "                    ".

(** The callback of [resource.methods().forEach] in [generateMethods]. *)
Definition generateMethod (file : string) (resource : Resource)
           (fmtParams : list string) (methodArgs : list Arg) (method : Method)
  : Gen unit :=
  let methodName := inferMethodName resource method in
  onModule (File_func file methodName) ;;
  onModule (Func_methodOf file methodName "c *Client") ;;
  let queryParams :=
    fold_left (fun qs trait => (qs ++ t_queryParameters trait)%list)
              (is_ method) (m_queryParameters method) in
  let body :=
    fold_left (fun bs trait => (bs ++ t_body trait)%list) (is_ method) (m_body method) in
  forEach methodArgs (fun arg =>
    onModule (Func_arg file methodName (arg_name arg) (arg_type arg))) ;;
  match body with
  | [] => ret tt
  | _ =>
      ty <- generateReqStruct file (methodName ++ "Payload") Payload body ;;
      onModule (Func_arg file methodName "payload" ty)
  end ;;
  match queryParams with
  | [] => ret tt
  | _ =>
      ty <- generateReqStruct file (methodName ++ "Params") Params queryParams ;;
      onModule (Func_arg file methodName "params" ty)
  end ;;
  onModule (Func_returns file methodName "*http.Response") ;;
  resType <-
    match find isSuccess (responses method) with
    | Some goodRes =>
        match r_body goodRes with
        | b :: _ =>
            ty <- lift (translateType b) ;;
            onModule (Func_returns file methodName ty) ;;
            ret (Some ty)
        | [] => ret None
        end
    | None => ret None
    end ;;
  onModule (Func_returns file methodName "error") ;;
  let request := requestHead (method_ method) fmtParams in
  request <-
    (if arrayTruthy body then
       onModule (File_import file "bytes") ;;
       onModule (File_import file "encoding/json") ;;
       onModule (Func_write file methodName marshalPayload) ;;
       ret (request ++ requestBody)
     else ret request) ;;
  (if arrayTruthy queryParams then
     onModule (File_import file "github.com/google/go-querystring") ;;
     onModule (Func_write file methodName encodeQuery)
   else onModule (Func_write file methodName emptyQuery)) ;;
  onModule (Func_write file methodName (doRequest request)) ;;
  if truthy resType
  then onModule (Func_write file methodName (decodeResponse (interpolate resType)))
  else onModule (Func_write file methodName plainReturn).

Fixpoint generateMethods (file : string) (resource : Resource) : Gen unit :=
  match resource with
  | mkResource _ _ ms subs =>
      params <- lift (pathParams resource) ;;
      forEach ms (generateMethod file resource (fst params) (snd params)) ;;
      (fix each (rs : list Resource) : Gen unit :=
         match rs with
         | [] => ret tt
         | r :: rest => generateMethods file r ;; each rest
         end) subs
  end.

Definition createEndpoints (api : Api) (file : string) : Gen unit :=
  onModule (File_import file "http") ;;
  onModule (File_import file "fmt") ;;
  forEach (a_resources api) (generateMethods file).

End Inline.

(* ================================================================== *)
(** * Vocabulary of the statements *)
(* ================================================================== *)

(** The character does not occur in the string. *)
Fixpoint lacks (a : ascii) (q : string) : bool :=
  match q with
  | EmptyString => true
  | String b q' => negb (Ascii.eqb a b) && lacks a q'
  end.

(** A word of a camel-case identifier goes on while lower-case letters
    follow. *)
Definition continuesWord (s : string) : bool :=
  match s with
  | String c _ => JS.isLower c
  | EmptyString => false
  end.

(** Some occurrence of [needle] in [s] is a whole word: the word ends
    where the needle ends. *)
Fixpoint hasWholeWord (needle s : string) : bool :=
  (prefix needle s && negb (continuesWord (JS.sliceFrom (String.length needle) s)))
  || match s with
     | EmptyString => false
     | String _ r => hasWholeWord needle r
     end.

(** No rule of the table has a whole word to rewrite in [s]. *)
Definition wholeWordFree (s : string) : bool :=
  forallb (fun cap => negb (hasWholeWord (fst cap) s)) capitalizations.

(** The same declaration with another [required] flag. *)
Definition withRequired (b : bool) (t : TypeDeclaration) : TypeDeclaration :=
  mkType (name t) (displayName t) (type_ t) b (items t) (properties t).

(** The type name [translateType] hands to [translateTypeString]: the
    first type of the declaration, or of its items for an array; [None]
    where the source would dereference the undefined value. *)
Definition elementName (t : TypeDeclaration) : option string :=
  match type_ t with
  | [] => None
  | primary :: _ =>
      if String.eqb primary "array"
      then match items t with
           | Some it => hd_error (type_ it)
           | None => None
           end
      else Some primary
  end.

(** A printer for calls, for the concrete runs below. *)
Definition printCall (c : Call) : string :=
  callee c ++ "(" ++ JS.join ", " (map arg_name (call_args c)) ++ ")".

(** The return types of a function of a file, empty when there is no
    such function. *)
Definition returnsOf (file fname : string) (m : GoModule) : list string :=
  match findFunc file fname m with
  | Some fn => fn_returns fn
  | None => []
  end.

Definition argsOf (file fname : string) (m : GoModule) : list Arg :=
  match findFunc file fname m with
  | Some fn => fn_args fn
  | None => []
  end.

Definition bodyOf (file fname : string) (m : GoModule) : list string :=
  match findFunc file fname m with
  | Some fn => fn_body fn
  | None => []
  end.

(** ** Sample inputs *)

Definition emptyApi : Api := mkApi [] [].

Definition pVersion : TypeDeclaration := mkType "version" None ["string"] true None None.
Definition pId : TypeDeclaration := mkType "id" None ["integer"] true None None.

(** A resource below the versioned base, with one integer parameter. *)
Definition rUser : Resource :=
  mkResource "https://example.com/api/v{version}/users/{id}" [pVersion; pId] [] [].

(** A resource with no parameter beyond the version. *)
Definition rUsers : Resource :=
  mkResource "https://example.com/api/v{version}/users" [pVersion] [] [].

(** A delete whose only response, 204, has no body. *)
Definition mDelete : Method := mkMethod None "delete" [] [] [] [mkResponse "204" []].

(** A method whose responses are all failures. *)
Definition mFailing : Method :=
  mkMethod None "get" [] [] [] [mkResponse "404" []; mkResponse "500" []].

Definition jsonUser : TypeDeclaration :=
  mkType "application/json" (Some "application/json") ["User"] true None None.

(** An upload with a multipart body, and a post of plain text. *)
Definition mUpload : Method :=
  mkMethod None "post" []
    [mkType "multipart/form-data" (Some "multipart/form-data") ["object"] true None (Some [])]
    [] [mkResponse "200" [jsonUser]].

Definition textBody : TypeDeclaration :=
  mkType "text/plain" (Some "text/plain") ["string"] true None None.

Definition mText : Method :=
  mkMethod None "post" [] [textBody] [] [mkResponse "200" [jsonUser]].

(** A method with a verb outside the five the generator names. *)
Definition mHead : Method := mkMethod None "head" [] [] [] [].


(** The state in which [method] calls its generation steps for a
    function named [fname] of [file]. *)
Definition stateFor (file fname : string) : State :=
  mkState (File_func file fname emptyModule) [] fname [] [] [].

(** A listing without parameters and traits, and the resource that
    owns it. *)
Definition mList : Method :=
  mkMethod None "get" [] [] [] [mkResponse "200" [jsonUser]].

Definition rUsersListing : Resource :=
  mkResource "https://example.com/api/v{version}/users" [pVersion] [mList] [].

(** The field and the serialization line [generateQueryParams] emits for
    a query parameter. *)
Definition queryField (prop : TypeDeclaration) : Field :=
  mkField (translatePropName (name prop) true)
          (translateTypeString (hd "" (type_ prop))) None.

Definition queryLine (prop : TypeDeclaration) : string :=
  "v.Set(" ++ JS.dq ++ name prop ++ JS.dq ++ ", query."
  ++ translatePropName (name prop) true ++ ")" ++ JS.nl.

Definition addField (fld : Field) (s : Struct) : Struct :=
  mkStruct (s_name s) (s_fields s ++ [fld])%list.

(** Every character of the string passes the test. *)
Fixpoint allChars (p : ascii -> bool) (s : string) : bool :=
  match s with
  | EmptyString => true
  | String c r => p c && allChars p r
  end.

(** The field [gen] appends for a declared property. *)
Definition propertyField (prop : TypeDeclaration) : outcome Field :=
  obind (translateType prop) (fun ty =>
    Returned (mkField (translatePropName (name prop) true) ty
                      (Some ("json:" ++ JS.dq ++ name prop ++ JS.dq)))).

(** The lists computed for the elements, one after the other, appended. *)
Fixpoint concatOutcome {A B : Type} (f : A -> outcome (list B)) (l : list A)
  : outcome (list B) :=
  match l with
  | [] => Returned []
  | x :: rest =>
      obind (f x) (fun ys => obind (concatOutcome f rest) (fun zs => Returned (ys ++ zs)%list))
  end.

(** The fields of a type, as a value: those of its own properties in
    order, then, depth first, those of every supertype that the API
    declares under the name the type gives. *)
Fixpoint flattenFields (fuel : nat) (api : Api) (t : TypeDeclaration)
  : outcome (list Field) :=
  match fuel with
  | O => OutOfFuel
  | S fuel' =>
      match properties t with
      | None => Returned []
      | Some props =>
          obind (mapOutcome propertyField props) (fun own =>
            obind (concatOutcome
                     (fun sub =>
                        match find (fun d => String.eqb (name d) sub) (types api) with
                        | Some t' => flattenFields fuel' api t'
                        | None => Returned []
                        end)
                     (type_ t))
                  (fun inherited => Returned (own ++ inherited)%list))
      end
  end.

(** The state once the fields have been appended to a struct. *)
Definition withFields (file struct : string) (fs : list Field) (st : State) : State :=
  mkState (fold_left (fun m fld => Struct_field file struct fld m) fs (gomodule st))
          (console st) (func st) (options st) (before st) (after st).

Definition appendFields (file struct : string) (st : State) (o : outcome (list Field))
  : outcome (unit * State) :=
  match o with
  | Returned fs => Returned (tt, withFields file struct fs st)
  | Thrown e => Thrown e
  | OutOfFuel => OutOfFuel
  end.

(** A model with an object type and its base type. *)
Definition tBase : TypeDeclaration :=
  mkType "Base" None ["object"] true None
         (Some [mkType "id" None ["string"] true None None]).
Definition tUser : TypeDeclaration :=
  mkType "User" None ["Base"] true None
         (Some [mkType "count" None ["integer"] false None None]).
Definition modelApi : Api := mkApi [tUser; tBase] [].

(** A rank on declarations for [modelApi]: above [User] what extends it,
    above [Base] what extends that. *)
Definition modelRank (t : TypeDeclaration) : nat :=
  if mem "User" (type_ t) then 2 else if mem "Base" (type_ t) then 1 else 0.

(** A search with two query parameters of its own and one from a trait. *)
Definition qTerm : TypeDeclaration := mkType "q" None ["string"] true None None.
Definition qLimit : TypeDeclaration := mkType "limit" None ["integer"] false None None.
Definition qPage : TypeDeclaration := mkType "page" None ["integer"] false None None.
Definition mSearch : Method :=
  mkMethod None "get" [qTerm; qLimit] [] [mkTrait [qPage] []] [mkResponse "200" [jsonUser]].

(** A query parameter that declares no type. *)
Definition qUntyped : TypeDeclaration := mkType "sort" None [] false None None.
Definition mUntyped : Method :=
  mkMethod None "get" [qTerm; qUntyped] [] [] [mkResponse "200" [jsonUser]].

(** The declaration names the type to translate. *)
Definition namesType (t : TypeDeclaration) : bool :=
  match elementName t with
  | Some _ => true
  | None => false
  end.

(** A resource whose second parameter declares no type. *)
Definition rUntyped : Resource :=
  mkResource "https://example.com/api/v{version}/users/{id}"
             [pVersion; mkType "id" None [] true None None] [] [].

(** While the function under construction is [f], the step leaves [f]
    in that role and every other function of the file as it was. *)
Definition othersKept (file f : string) (st st' : State) : Prop :=
  func st = f ->
  func st' = f
  /\ forall g, g <> f -> findFunc file g (gomodule st') = findFunc file g (gomodule st).

Definition keeps (file f : string) {A : Type} (c : Gen A) : Prop :=
  forall st a st', c st = Returned (a, st') -> othersKept file f st st'.

(** A method with a JSON body of a type the model does not declare. *)
Definition jsonNote : TypeDeclaration :=
  mkType "application/json" (Some "application/json") ["object"] true None
         (Some [mkType "text" None ["string"] true None None]).
Definition mCreate : Method :=
  mkMethod None "post" [] [jsonNote] [] [mkResponse "201" []].

(** A method whose first response fails and whose second and third
    succeed, the later one with the lower code. *)
Definition mMixed : Method :=
  mkMethod None "get" [] [] []
    [mkResponse "404" []; mkResponse "201" [jsonNote]; mkResponse "200" [jsonUser]].

(** A put with a decoded answer and a patch without a successful
    response, on one resource: both infer the name [UpdateUser]. *)
Definition mPut : Method := mkMethod None "put" [] [] [] [mkResponse "200" [jsonUser]].
Definition mPatch : Method := mkMethod None "patch" [] [] [] [mkResponse "404" []].
Definition rProfile : Resource :=
  mkResource "https://example.com/api/v{version}/user" [pVersion] [mPut; mPatch] [].

(** The names of the structs of a file, in declaration order. *)
Definition structNames (file : string) (m : GoModule) : list string :=
  map s_name (structs (Module_file file m)).

(** A name joins a list of declared names unless it is there. *)
Definition declare (nm : string) (names : list string) : list string :=
  if mem nm names then names else (names ++ [nm])%list.

(** The operations of a resource and of its sub-resources, each with the
    resource that owns it, in the order [generateMethods] visits them. *)
Fixpoint allOperations (resource : Resource) : list (Resource * Method) :=
  match resource with
  | mkResource _ _ ms subs =>
      (map (fun m => (resource, m)) ms
       ++ (fix each (rs : list Resource) : list (Resource * Method) :=
             match rs with
             | [] => []
             | r :: rest => allOperations r ++ each rest
             end) subs)%list
  end.

(** Every function of the file that is there before is there after. *)
Definition grows (file : string) (st st' : State) : Prop :=
  forall g, findFunc file g (gomodule st) <> None -> findFunc file g (gomodule st') <> None.

Definition keepsRel (R : State -> State -> Prop) {A : Type} (c : Gen A) : Prop :=
  forall st a st', c st = Returned (a, st') -> R st st'.

(** A collection with two operations and a member with one. *)
Definition rCollection : Resource :=
  mkResource "https://example.com/api/v{version}/users" [pVersion] [mList; mDelete]
             [mkResource "https://example.com/api/v{version}/users/{id}" [pVersion; pId]
                         [mDelete] []].

(** Generating the operations of a resource loses no function and
    leaves one for each operation of the resource and below. *)
Definition declaresAll (Call_toString : Call -> string) (fuel : nat) (file : string)
           (api : Api) (resource : Resource) : Prop :=
  forall st st',
    generateMethods Call_toString fuel file api resource st = Returned (tt, st') ->
    grows file st st'
    /\ forall r m, In (r, m) (allOperations resource) ->
         findFunc file (inferMethodName r m) (gomodule st') <> None.

(* ================================================================== *)
(** * Properties: strings *)
(* ================================================================== *)

Section StringFacts.

Lemma substring_0_length (s : string) : substring 0 (String.length s) s = s.
Proof. induction s as [|c r IH]; simpl; [reflexivity | now rewrite IH]. Qed.

Lemma sliceFrom_0 (s : string) : JS.sliceFrom 0 s = s.
Proof. unfold JS.sliceFrom. rewrite Nat.sub_0_r. apply substring_0_length. Qed.

Lemma sliceFrom_cons (k : nat) (c : ascii) (r : string) :
  JS.sliceFrom (S k) (String c r) = JS.sliceFrom k r.
Proof. reflexivity. Qed.

Lemma upperFirst_empty : upperFirst "" = "".
Proof. reflexivity. Qed.

Lemma upperFirst_cons (c : ascii) (r : string) :
  upperFirst (String c r) = String (JS.toUpperChar c) r.
Proof.
  unfold upperFirst, JS.slice. rewrite sliceFrom_cons, sliceFrom_0.
  destruct r; reflexivity.
Qed.

Lemma toUpperChar_not_lower (c : ascii) : JS.isLower (JS.toUpperChar c) = false.
Proof. destruct c as [[] [] [] [] [] [] [] []]; reflexivity. Qed.

(** A replacement in progress equals a fresh replacement on what is left
    once the current match has been skipped. *)
Lemma replaceAllFrom_skip (needle rep : string) (s : string) :
  forall k, JS.replaceAllFrom needle rep k s
            = JS.replaceAllFrom needle rep 0 (JS.sliceFrom k s).
Proof.
  induction s as [|c r IH]; intros k.
  - destruct k; reflexivity.
  - destruct k as [|k].
    + now rewrite sliceFrom_0.
    + simpl JS.replaceAllFrom at 1. rewrite sliceFrom_cons. apply IH.
Qed.

(** The equation of a global replacement. *)
Lemma replaceAll_cons (needle rep : string) (c : ascii) (r : string) :
  JS.replaceAll needle rep (String c r)
  = if prefix needle (String c r)
    then rep ++ JS.replaceAll needle rep (JS.sliceFrom (String.length needle - 1) r)
    else String c (JS.replaceAll needle rep r).
Proof.
  unfold JS.replaceAll. cbn [JS.replaceAllFrom].
  destruct (prefix needle (String c r)); [|reflexivity].
  now rewrite replaceAllFrom_skip.
Qed.

(** When needle and replacement start with the same character, a global
    replacement keeps every prefix that does not contain it. *)
Lemma prefix_replaceAllFrom (a : ascii) (needle' rep' : string) (s : string) :
  forall q, lacks a q = true ->
    prefix q (JS.replaceAllFrom (String a needle') (String a rep') 0 s) = prefix q s.
Proof.
  induction s as [|c r IH]; intros q Hq; [reflexivity|].
  cbn [JS.replaceAllFrom].
  destruct (prefix (String a needle') (String c r)) eqn:Hp.
  - destruct q as [|b q']; [reflexivity|].
    simpl in Hq. apply andb_true_iff in Hq as [Hb _].
    apply negb_true_iff, Ascii.eqb_neq in Hb.
    simpl in Hp. destruct (ascii_dec a c) as [->|]; [|discriminate].
    simpl. destruct (ascii_dec b c) as [->|]; [congruence | reflexivity].
  - destruct q as [|b q']; [reflexivity|].
    simpl in Hq. apply andb_true_iff in Hq as [_ Hq].
    simpl. destruct (ascii_dec b c); [apply IH, Hq | reflexivity].
Qed.

Lemma prefix_fixCaps (q s : string) :
  lacks "I" q = true -> lacks "O" q = true -> prefix q (fixCaps s) = prefix q s.
Proof.
  intros HI HO. unfold fixCaps, capitalizations, JS.replaceAll. cbn [fold_left fst snd].
  rewrite prefix_replaceAllFrom by exact HO.
  now rewrite prefix_replaceAllFrom by exact HI.
Qed.

Lemma fixCaps_star (s : string) : fixCaps ("*" ++ s) = "*" ++ fixCaps s.
Proof. reflexivity. Qed.

Lemma includes_cons (p : string) (c : ascii) (r : string) :
  JS.includes p (String c r) = prefix p (String c r) || JS.includes p r.
Proof. reflexivity. Qed.

(** After the first rule no [Id] is left. *)
Lemma replaceAll_Id_none (s : string) :
  forall k, JS.includes "Id" (JS.replaceAllFrom "Id" "ID" k s) = false.
Proof.
  induction s as [|c r IH]; intros k.
  - destruct k; reflexivity.
  - destruct k as [|k]; [|apply IH].
    cbn [JS.replaceAllFrom].
    destruct (prefix "Id" (String c r)) eqn:Hp.
    + change ("ID" ++ ?x) with (String "I" (String "D" x)).
      rewrite !includes_cons, IH. reflexivity.
    + rewrite includes_cons, (IH 0), orb_false_r.
      cbn [prefix] in Hp |- *. destruct (ascii_dec "I" c); [|reflexivity].
      change (prefix "d" (JS.replaceAllFrom "Id" "ID" 0 r) = false).
      rewrite (prefix_replaceAllFrom "I" "d" "D") by reflexivity. exact Hp.
Qed.

(** The second rule brings no [Id] back. *)
Lemma replaceAll_Oauth_keeps_Id_free (s : string) :
  forall k, JS.includes "Id" s = false ->
    JS.includes "Id" (JS.replaceAllFrom "Oauth" "OAuth" k s) = false.
Proof.
  induction s as [|c r IH]; intros k H.
  - destruct k; reflexivity.
  - rewrite includes_cons in H. apply orb_false_iff in H as [Hp Hr].
    destruct k as [|k]; [|now apply IH].
    cbn [JS.replaceAllFrom].
    destruct (prefix "Oauth" (String c r)) eqn:Ho.
    + change ("OAuth" ++ ?x)
        with (String "O" (String "A" (String "u" (String "t" (String "h" x))))).
      rewrite !includes_cons, IH by exact Hr. reflexivity.
    + rewrite includes_cons, (IH 0) by exact Hr. rewrite orb_false_r.
      cbn [prefix] in Hp |- *. destruct (ascii_dec "I" c); [|reflexivity].
      change (prefix "d" (JS.replaceAllFrom "Oauth" "OAuth" 0 r) = false).
      rewrite (prefix_replaceAllFrom "O" "auth" "Auth") by reflexivity. exact Hp.
Qed.

(** After the second rule no [Oauth] is left. *)
Lemma replaceAll_Oauth_none (s : string) :
  forall k, JS.includes "Oauth" (JS.replaceAllFrom "Oauth" "OAuth" k s) = false.
Proof.
  induction s as [|c r IH]; intros k.
  - destruct k; reflexivity.
  - destruct k as [|k]; [|apply IH].
    cbn [JS.replaceAllFrom].
    destruct (prefix "Oauth" (String c r)) eqn:Ho.
    + change ("OAuth" ++ ?x)
        with (String "O" (String "A" (String "u" (String "t" (String "h" x))))).
      rewrite !includes_cons, IH. reflexivity.
    + rewrite includes_cons, (IH 0), orb_false_r.
      cbn [prefix] in Ho |- *. destruct (ascii_dec "O" c); [|reflexivity].
      change (prefix "auth" (JS.replaceAllFrom "Oauth" "OAuth" 0 r) = false).
      rewrite (prefix_replaceAllFrom "O" "auth" "Auth") by reflexivity. exact Ho.
Qed.

End StringFacts.

(* ================================================================== *)
(** * Properties: names and types *)
(* ================================================================== *)

(** C6, as stated, fails: the rules are plain substring patterns.  In
    [Idle] no rule has a whole word to rewrite (the only [Id] is followed
    by a lower-case letter), yet the pass rewrites it to [IDle]. *)
Lemma fixCaps_rewrites_inside_word :
  wholeWordFree "Idle" = true /\ fixCaps "Idle" = "IDle" /\ fixCaps "Idle" <> "Idle".
Proof. split; [reflexivity | split; [reflexivity | discriminate]]. Qed.

(** C6, amended: the acronym-fix pass applies its rules in the order of
    the table ([Id] to [ID], then [Oauth] to [OAuth]), each to every
    occurrence of its pattern wherever it stands, so that no occurrence
    of either pattern is left; the rules compose, [OauthId] becomes
    [OAuthID]. *)
Theorem fixCaps_in_order_everywhere :
  fixCaps "OauthId" = "OAuthID"
  /\ (forall s, fixCaps s = JS.replaceAll "Oauth" "OAuth" (JS.replaceAll "Id" "ID" s))
  /\ (forall s, JS.includes "Id" (fixCaps s) = false
                /\ JS.includes "Oauth" (fixCaps s) = false).
Proof.
  split; [reflexivity|]. split; [reflexivity|].
  intros s. unfold fixCaps, capitalizations, JS.replaceAll. cbn [fold_left fst snd]. split.
  - apply replaceAll_Oauth_keeps_Id_free, replaceAll_Id_none.
  - apply replaceAll_Oauth_none.
Qed.

Lemma translateTypeString_no_star (fuel : nat) :
  forall p, prefix "*" p = false -> prefix "*" (translateTypeStringFuel fuel p) = false.
Proof.
  assert (base : forall p, prefix "*" p = false ->
            prefix "*" (if JS.includes "|" p then "interface{}"
                        else match scalarTable p with Some go => go | None => p end) = false).
  { intros p Hp. destruct (JS.includes "|" p); [reflexivity|].
    unfold scalarTable.
    repeat match goal with
           | |- context [String.eqb p ?k] => destruct (String.eqb p k); [reflexivity|]
           end.
    exact Hp. }
  induction fuel as [|fuel IH]; intros p Hp; cbn [translateTypeStringFuel].
  - now apply base.
  - destruct (JS.endsWith "[]" p); [reflexivity | now apply base].
Qed.

(** C7: for every type descriptor that names the type to translate,
    the translation is the qualifier, present exactly when the
    descriptor is not required, followed by the translation of the same
    descriptor marked required: a required descriptor gets the
    unqualified type, any other the same type behind [*].  As that
    unqualified type does not begin with [*] itself (no type name does),
    the translated string begins with [*] if and only if [required] is
    false. *)
Theorem translateType_qualifier_iff_not_required (t : TypeDeclaration) (p : string) :
  elementName t = Some p ->
  exists s u,
    translateType t = Returned s
    /\ translateType (withRequired true t) = Returned u
    /\ s = (if required t then "" else "*") ++ u
    /\ (JS.startsWith "*" p = false ->
        JS.startsWith "*" u = false
        /\ (JS.startsWith "*" s = true <-> required t = false)).
Proof.
  unfold elementName, translateType, JS.startsWith. intros He.
  cbn [withRequired type_ required items].
  destruct (type_ t) as [|primary rest]; [discriminate|].
  destruct (String.eqb primary "array").
  - destruct (items t) as [it|]; [|discriminate].
    destruct (type_ it) as [|primary' rest']; [discriminate|].
    cbn [hd_error] in He. injection He as ->.
    assert (Hu : prefix "*" (fixCaps (("" ++ "[]") ++ translateTypeString p)) = false).
    { cbn [append]. rewrite prefix_fixCaps by reflexivity. reflexivity. }
    eexists; eexists.
    split; [reflexivity|]. split; [reflexivity|]. split.
    + destruct (required t); [reflexivity | now rewrite <- fixCaps_star].
    + intros _. split; [exact Hu|].
      destruct (required t); split; intros H; try discriminate; reflexivity.
  - injection He as ->.
    eexists; eexists.
    split; [reflexivity|]. split; [reflexivity|]. split.
    + destruct (required t); [reflexivity | now rewrite <- fixCaps_star].
    + intros Hp.
      assert (Hu : prefix "*" (fixCaps ("" ++ translateTypeString p)) = false)
        by (cbn [append]; rewrite prefix_fixCaps by reflexivity;
            now apply translateTypeString_no_star).
      split; [exact Hu|].
      destruct (required t); split; intros H; try discriminate; try reflexivity.
      * elim (eq_true_false_abs _ H Hu).
      * rewrite fixCaps_star. destruct (fixCaps _); reflexivity.
Qed.

Lemma translateType_qualifier_witness :
  exists s u,
    translateType (mkType "count" None ["integer"] false None None) = Returned s
    /\ translateType (withRequired true (mkType "count" None ["integer"] false None None))
       = Returned u
    /\ s = "*" ++ u
    /\ (JS.startsWith "*" "integer" = false ->
        JS.startsWith "*" u = false
        /\ (JS.startsWith "*" s = true <-> false = false)).
Proof.
  exact (translateType_qualifier_iff_not_required
           (mkType "count" None ["integer"] false None None) "integer" eq_refl).
Defined.

Lemma joined_upperFirst_head (segs : list string) :
  match JS.join "" (map upperFirst segs) with
  | EmptyString => True
  | String c _ => JS.isLower c = false
  end.
Proof.
  unfold JS.join.
  induction segs as [|x xs IH]; [exact I|].
  cbn [map String.concat].
  destruct x as [|c r].
  - rewrite upperFirst_empty.
    destruct (map upperFirst xs) eqn:E; [exact I|]. exact IH.
  - rewrite upperFirst_cons.
    destruct (map upperFirst xs); cbn; apply toUpperChar_not_lower.
Qed.

(** C4, as stated, fails: an exported [type] is capitalised before the
    keyword test, so it resolves to [Type], not to [Kind]. *)
Lemma translatePropName_exported_type :
  translatePropName "type" true = "Type" /\ translatePropName "type" true <> "Kind".
Proof. split; [reflexivity | discriminate]. Qed.

(** C4, amended: a name whose capitalised form is exactly the reserved
    word [type] resolves to [kind]; this happens for unexported names
    only, an exported name being capitalised first. *)
Theorem translatePropName_type_is_kind (name : string) (isExported : bool) :
  capitalized name isExported = "type" ->
  translatePropName name isExported = "kind" /\ isExported = false.
Proof.
  intros H. split.
  - unfold translatePropName. rewrite H. reflexivity.
  - destruct isExported; [exfalso | reflexivity].
    unfold capitalized in H.
    assert (Hs : capitalizeSegments true (JS.splitNonAlnum name)
                 = map upperFirst (JS.splitNonAlnum name)).
    { destruct (JS.splitNonAlnum name); reflexivity. }
    rewrite Hs in H.
    pose proof (joined_upperFirst_head (JS.splitNonAlnum name)) as Hh.
    rewrite H in Hh. discriminate Hh.
Qed.

Lemma translatePropName_type_is_kind_witness :
  translatePropName "type" false = "kind" /\ false = false.
Proof. exact (translatePropName_type_is_kind "type" false eq_refl). Defined.

(** C10: a method without a declared name whose verb is none of get,
    post, put, patch, delete is named [UNKNOWN], whatever the resource:
    no verb prefix, no derived tail, and no failure. *)
Theorem inferMethodName_unknown_verb (resource : Resource) (m : Method) :
  m_displayName m = None ->
  method_ m <> "get" -> method_ m <> "post" -> method_ m <> "put" ->
  method_ m <> "patch" -> method_ m <> "delete" ->
  inferMethodName resource m = "UNKNOWN".
Proof.
  intros Hn Hget Hpost Hput Hpatch Hdelete.
  unfold inferMethodName. rewrite Hn.
  apply String.eqb_neq in Hget, Hpost, Hput, Hpatch, Hdelete.
  now rewrite Hget, Hpost, Hput, Hpatch, Hdelete.
Qed.

Lemma inferMethodName_unknown_verb_witness : inferMethodName rUser mHead = "UNKNOWN".
Proof.
  apply inferMethodName_unknown_verb; [reflexivity | discriminate ..].
Defined.

(* ================================================================== *)
(** * Properties: the builder *)
(* ================================================================== *)

Section BuilderFacts.

Lemma lookupFile_storeFile (path : string) (f : File) (fs : list (string * File)) :
  lookupFile path (storeFile path f fs) = Some f.
Proof.
  induction fs as [|[p g] rest IH]; cbn [storeFile lookupFile].
  - now rewrite String.eqb_refl.
  - destruct (String.eqb p path) eqn:E; cbn [lookupFile]; rewrite E; [reflexivity | exact IH].
Qed.

Lemma Module_file_withFile (path : string) (g : File -> File) (m : GoModule) :
  Module_file path (withFile path g m) = g (Module_file path m).
Proof.
  unfold Module_file at 1, withFile. cbn [files]. now rewrite lookupFile_storeFile.
Qed.

Lemma Module_file_register (path x : string) (m : GoModule) :
  Module_file path (register x m) = Module_file path m.
Proof. unfold register. now destruct (mem x (identifiers m)). Qed.

Lemma lookupFile_storeFile_other (path other : string) (f : File)
      (fs : list (string * File)) :
  other <> path -> lookupFile other (storeFile path f fs) = lookupFile other fs.
Proof.
  intros Hne. induction fs as [|[p g] rest IH]; cbn [storeFile lookupFile].
  - assert (E : String.eqb path other = false) by (apply String.eqb_neq; congruence).
    now rewrite E.
  - destruct (String.eqb p path) eqn:E; cbn [lookupFile].
    + apply String.eqb_eq in E. subst p.
      assert (En : String.eqb path other = false) by (apply String.eqb_neq; congruence).
      now rewrite En.
    + destruct (String.eqb p other); [reflexivity | exact IH].
Qed.

Lemma Module_file_withFile_other (path other : string) (g : File -> File) (m : GoModule) :
  other <> path -> Module_file other (withFile path g m) = Module_file other m.
Proof.
  intros Hne. unfold Module_file, withFile. cbn [files].
  now rewrite lookupFile_storeFile_other.
Qed.

Lemma find_map_update (fname : string) (g : Func -> Func) (l : list Func) :
  (forall fn, fn_name (g fn) = fn_name fn) ->
  find (fun fn => String.eqb (fn_name fn) fname)
       (map (fun fn => if String.eqb (fn_name fn) fname then g fn else fn) l)
  = option_map g (find (fun fn => String.eqb (fn_name fn) fname) l).
Proof.
  intros Hg. induction l as [|fn rest IH]; [reflexivity|].
  cbn [map find]. destruct (String.eqb (fn_name fn) fname) eqn:E.
  - rewrite Hg, E. reflexivity.
  - rewrite E. exact IH.
Qed.

Lemma findFunc_withFunc (path fname : string) (g : Func -> Func) (m : GoModule) :
  (forall fn, fn_name (g fn) = fn_name fn) ->
  findFunc path fname (withFunc path fname g m) = option_map g (findFunc path fname m).
Proof.
  intros Hg. unfold findFunc, withFunc. rewrite Module_file_withFile. cbn [funcs].
  now apply find_map_update.
Qed.

Lemma findFunc_returns (path fname ty : string) (m : GoModule) (fn : Func) :
  findFunc path fname m = Some fn ->
  findFunc path fname (Func_returns path fname ty m)
  = Some (mkFunc (fn_name fn) (fn_receiver fn) (fn_args fn)
                 (fn_returns fn ++ [ty])%list (fn_body fn)).
Proof.
  intros H. unfold Func_returns. rewrite findFunc_withFunc by reflexivity.
  now rewrite H.
Qed.

Lemma find_some_split {A : Type} (f : A -> bool) (l : list A) (x : A) :
  find f l = Some x ->
  exists pre post,
    l = (pre ++ x :: post)%list /\ forallb (fun y => negb (f y)) pre = true /\ f x = true.
Proof.
  induction l as [|y rest IH]; [discriminate|].
  cbn [find]. destruct (f y) eqn:E.
  - intros [= ->]. exists [], rest. now repeat split.
  - intros H. destruct (IH H) as (pre & post & -> & Hpre & Hx).
    exists (y :: pre), post. cbn [forallb]. rewrite E, Hpre. now repeat split.
Qed.

Lemma find_none_all {A : Type} (f : A -> bool) (l : list A) :
  find f l = None -> forallb (fun y => negb (f y)) l = true.
Proof.
  induction l as [|y rest IH]; [reflexivity|].
  cbn [find forallb]. destruct (f y); [discriminate|]. exact IH.
Qed.

End BuilderFacts.

Lemma translateType_never_OutOfFuel (t : TypeDeclaration) : translateType t <> OutOfFuel.
Proof.
  unfold translateType. destruct (type_ t) as [|p l]; [discriminate|].
  destruct (String.eqb p "array"); [|discriminate].
  destruct (items t) as [it|]; [|discriminate].
  destruct (type_ it); discriminate.
Qed.

(* ================================================================== *)
(** * Properties: responses *)
(* ================================================================== *)

(** What [Number] reads, against the bound: integers, fractions,
    exponents, the other radixes, the infinities and surrounding white
    space; anything else is NaN and below nothing. *)
Example isSuccess_reads_numbers :
  map (fun c => isSuccess (mkResponse c []))
      ["200"; "299"; " 204 "; "1e2"; "2.5E+2"; "299.9"; ".5"; "0x12"; "0B11"; "0o17";
       "-Infinity"; "-1"; ""; String (ascii_of_nat 160) "204"]
  = [true; true; true; true; true; true; true; true; true; true;
     true; true; true; true]
  /\ map (fun c => isSuccess (mkResponse c []))
         ["300"; "404"; "3e2"; "0.3e3"; "0x12C"; "Infinity"; "+Infinity"; "2xx"; "0x";
          "1e"; "."; "- 1"; "-0x1"; "infinity"; "299.99999999999999"]
     = [false; false; false; false; false; false; false; false; false;
        false; false; false; false; false; false].
Proof. split; vm_compute; reflexivity. Qed.

(** The run of [generateFuncReturns], case by case on the response
    [getSuccessfulResponse] selects. *)
Lemma generateFuncReturns_run (file : string) (m : Method) (st : State) :
  generateFuncReturns file m st
  = let plain :=
        Func_returns file (func st) "error"
          (Func_returns file (func st) "*http.Response" (gomodule st)) in
    match getSuccessfulResponse m with
    | Some res =>
        match r_body res with
        | b :: _ =>
            match translateType b with
            | Returned ty =>
                Returned (tt, mkState
                                (Func_returns file (func st) "error"
                                   (Func_returns file (func st) ty
                                      (Func_returns file (func st) "*http.Response"
                                         (gomodule st))))
                                (console st) (func st) (options st) (before st)
                                (after st ++ [decodeResponse (Some ty)])%list)
            | Thrown e => Thrown e
            | OutOfFuel => OutOfFuel
            end
        | [] =>
            Returned (tt, mkState plain (console st) (func st) (options st) (before st)
                            (after st ++ [decodeResponse None])%list)
        end
    | None =>
        Returned (tt, mkState plain (console st) (func st) (options st) (before st)
                        (after st ++ [plainReturn])%list)
    end.
Proof.
  unfold generateFuncReturns. cbv zeta.
  destruct (getSuccessfulResponse m) as [res|]; [|reflexivity].
  destruct (r_body res) as [|b rest]; [reflexivity|].
  unfold bind at 1, getState. unfold bind at 1, onModule at 1.
  unfold bind at 1. unfold bind at 1, lift.
  destruct (translateType b) as [ty| e |]; reflexivity.
Qed.

(** C9, as the code has it: the response that decides the return types
    and the text after the request is the first of the method's
    responses, in declaration order, whose code reads as a number below
    300 (every response before it fails the test).  With a body, the
    step appends [*http.Response], the translation of that response's
    first body and [error] to the return types of the function under
    construction, and writes the decoding text for that type; it throws
    where the translation does.  Without a body it appends the two types
    [*http.Response] and [error] (and writes the decoding text for the
    undefined type).  When no response passes the test it appends those
    two types and writes the plain [return res, err]: nothing is
    decoded.  The module changes by these appended return types only,
    and the console, the function under construction and the other two
    collectors are as before.  The types are appended to those the
    function already has: they are all of its return types when it had
    none. *)
Theorem getSuccessfulResponse_decides_returns
        (file : string) (m : Method) (st : State) (fn : Func) :
  findFunc file (func st) (gomodule st) = Some fn ->
  let appended (tys : list string) (st' : State) :=
      gomodule st'
      = fold_left (fun mo ty => Func_returns file (func st) ty mo) tys (gomodule st)
      /\ findFunc file (func st) (gomodule st')
         = Some (mkFunc (fn_name fn) (fn_receiver fn) (fn_args fn)
                        (fn_returns fn ++ tys)%list (fn_body fn))
      /\ (fn_returns fn = [] -> returnsOf file (func st) (gomodule st') = tys)
      /\ console st' = console st /\ func st' = func st
      /\ before st' = before st /\ options st' = options st in
  match getSuccessfulResponse m with
  | Some res =>
      (exists pre post,
         responses m = (pre ++ res :: post)%list
         /\ forallb (fun r => negb (isSuccess r)) pre = true
         /\ isSuccess res = true)
      /\ match r_body res with
         | b :: _ =>
             match translateType b with
             | Returned ty =>
                 exists st',
                   generateFuncReturns file m st = Returned (tt, st')
                   /\ appended ["*http.Response"; ty; "error"] st'
                   /\ after st' = (after st ++ [decodeResponse (Some ty)])%list
             | Thrown e => generateFuncReturns file m st = Thrown e
             | OutOfFuel => False
             end
         | [] =>
             exists st',
               generateFuncReturns file m st = Returned (tt, st')
               /\ appended ["*http.Response"; "error"] st'
               /\ after st' = (after st ++ [decodeResponse None])%list
         end
  | None =>
      forallb (fun r => negb (isSuccess r)) (responses m) = true
      /\ exists st',
           generateFuncReturns file m st = Returned (tt, st')
           /\ appended ["*http.Response"; "error"] st'
           /\ after st' = (after st ++ [plainReturn])%list
  end.
Proof.
  intros Hfn appended. rewrite generateFuncReturns_run. cbv zeta.
  assert (Htwo : forall a,
            appended ["*http.Response"; "error"]
              (mkState (Func_returns file (func st) "error"
                          (Func_returns file (func st) "*http.Response" (gomodule st)))
                       (console st) (func st) (options st) (before st) a)).
  { intros a. unfold appended. cbn [gomodule console func before options].
    split; [reflexivity|].
    assert (Hf : findFunc file (func st)
                   (Func_returns file (func st) "error"
                      (Func_returns file (func st) "*http.Response" (gomodule st)))
                 = Some (mkFunc (fn_name fn) (fn_receiver fn) (fn_args fn)
                                (fn_returns fn ++ ["*http.Response"; "error"])%list
                                (fn_body fn))).
    { rewrite (findFunc_returns _ _ "error" _ _
                 (findFunc_returns _ _ "*http.Response" _ _ Hfn)).
      cbn [fn_name fn_receiver fn_args fn_returns fn_body].
      now rewrite <- app_assoc. }
    split; [exact Hf|]. split; [|now repeat split].
    intros Hnone. unfold returnsOf. rewrite Hf. cbn [fn_returns]. now rewrite Hnone. }
  destruct (getSuccessfulResponse m) as [res|] eqn:E; unfold getSuccessfulResponse in E.
  - split; [exact (find_some_split isSuccess _ _ E)|].
    destruct (r_body res) as [|b rest].
    + eexists. split; [reflexivity|]. split; [apply Htwo | reflexivity].
    + pose proof (translateType_never_OutOfFuel b) as Hn.
      destruct (translateType b) as [ty| e |]; [|reflexivity|now apply Hn].
      eexists. split; [reflexivity|]. split; [|reflexivity].
      unfold appended. cbn [gomodule console func before options].
      split; [reflexivity|].
      assert (Hf : findFunc file (func st)
                     (Func_returns file (func st) "error"
                        (Func_returns file (func st) ty
                           (Func_returns file (func st) "*http.Response" (gomodule st))))
                   = Some (mkFunc (fn_name fn) (fn_receiver fn) (fn_args fn)
                                  (fn_returns fn ++ ["*http.Response"; ty; "error"])%list
                                  (fn_body fn))).
      { rewrite (findFunc_returns _ _ "error" _ _
                   (findFunc_returns _ _ ty _ _
                      (findFunc_returns _ _ "*http.Response" _ _ Hfn))).
        cbn [fn_name fn_receiver fn_args fn_returns fn_body].
        now rewrite <- !app_assoc. }
      split; [exact Hf|]. split; [|now repeat split].
      intros Hnone. unfold returnsOf. rewrite Hf. cbn [fn_returns]. now rewrite Hnone.
  - split; [exact (find_none_all isSuccess _ E)|].
    eexists. split; [reflexivity|]. split; [apply Htwo | reflexivity].
Qed.

Lemma getSuccessfulResponse_decides_returns_witness :
  (exists st',
     generateFuncReturns "endpoints.go" mMixed (stateFor "endpoints.go" "GetUsers")
     = Returned (tt, st')
     /\ returnsOf "endpoints.go" "GetUsers" (gomodule st')
        = ["*http.Response"; "map[string]interface{}"; "error"]
     /\ after st' = [decodeResponse (Some "map[string]interface{}")])
  /\ (exists st',
        generateFuncReturns "endpoints.go" mDelete (stateFor "endpoints.go" "DeleteUser")
        = Returned (tt, st')
        /\ returnsOf "endpoints.go" "DeleteUser" (gomodule st')
           = ["*http.Response"; "error"]
        /\ after st' = [decodeResponse None])
  /\ (exists st',
        generateFuncReturns "endpoints.go" mFailing (stateFor "endpoints.go" "GetUsers")
        = Returned (tt, st')
        /\ returnsOf "endpoints.go" "GetUsers" (gomodule st') = ["*http.Response"; "error"]
        /\ after st' = [plainReturn]).
Proof.
  split; [|split].
  - pose proof (getSuccessfulResponse_decides_returns
                  "endpoints.go" mMixed (stateFor "endpoints.go" "GetUsers")
                  (mkFunc "GetUsers" None [] [] []) eq_refl) as H.
    cbv zeta in H.
    change (getSuccessfulResponse mMixed) with (Some (mkResponse "201" [jsonNote])) in H.
    cbv beta iota delta [r_body] in H.
    change (translateType jsonNote) with (Returned (A := string) "map[string]interface{}") in H.
    cbv beta iota in H.
    destruct H as (_ & st' & Hrun & (_ & _ & Hret & _) & Hafter).
    exists st'. split; [exact Hrun|]. split; [exact (Hret eq_refl) | exact Hafter].
  - pose proof (getSuccessfulResponse_decides_returns
                  "endpoints.go" mDelete (stateFor "endpoints.go" "DeleteUser")
                  (mkFunc "DeleteUser" None [] [] []) eq_refl) as H.
    cbv zeta in H.
    change (getSuccessfulResponse mDelete) with (Some (mkResponse "204" [])) in H.
    cbv beta iota delta [r_body] in H.
    destruct H as (_ & st' & Hrun & (_ & _ & Hret & _) & Hafter).
    exists st'. split; [exact Hrun|]. split; [exact (Hret eq_refl) | exact Hafter].
  - pose proof (getSuccessfulResponse_decides_returns
                  "endpoints.go" mFailing (stateFor "endpoints.go" "GetUsers")
                  (mkFunc "GetUsers" None [] [] []) eq_refl) as H.
    cbv zeta in H.
    change (getSuccessfulResponse mFailing) with (@None Response) in H.
    cbv beta iota in H.
    destruct H as (_ & st' & Hrun & (_ & _ & Hret & _) & Hafter).
    exists st'. split; [exact Hrun|]. split; [exact (Hret eq_refl) | exact Hafter].
Defined.

(** C9, against the text: a put whose answer is decoded and a patch
    without a successful response, on one resource, infer the same name
    and write to one function; after both, that function returns five
    types, the decoded value among them, and holds the decoding text of
    the put before the plain return of the patch. *)
Lemma generateMethods_shared_function_returns :
  getSuccessfulResponse mPatch = None
  /\ inferMethodName rProfile mPut = "UpdateUser"
  /\ inferMethodName rProfile mPatch = "UpdateUser"
  /\ exists st',
       generateMethods printCall 1 "endpoints.go" emptyApi rProfile
                       (initialState emptyModule)
       = Returned (tt, st')
       /\ returnsOf "endpoints.go" "UpdateUser" (gomodule st')
          = ["*http.Response"; "User"; "error"; "*http.Response"; "error"]
       /\ map (JS.includes "Decode(&typ)") (bodyOf "endpoints.go" "UpdateUser" (gomodule st'))
          = [true; false]
       /\ map fn_name (funcs (Module_file "endpoints.go" (gomodule st'))) = ["UpdateUser"].
Proof.
  split; [reflexivity|]. split; [reflexivity|]. split; [reflexivity|].
  eexists. split; [vm_compute; reflexivity|].
  split; [|split]; vm_compute; reflexivity.
Qed.

(** C3, on the code: for a method whose first response below 300 has no
    body, the function under construction receives exactly the two
    return types [*http.Response] and [error], but the text written
    after the request is the decoding text all the same, rendered with
    the undefined response type: it declares [var typ undefined],
    decodes the payload and returns three values. *)
Theorem generateFuncReturns_bodyless_success
        (file : string) (m : Method) (res : Response) (st : State) (fn : Func) :
  findFunc file (func st) (gomodule st) = Some fn ->
  getSuccessfulResponse m = Some res ->
  r_body res = [] ->
  exists st',
    generateFuncReturns file m st = Returned (tt, st')
    /\ findFunc file (func st) (gomodule st')
       = Some (mkFunc (fn_name fn) (fn_receiver fn) (fn_args fn)
                      (fn_returns fn ++ ["*http.Response"; "error"])%list
                      (fn_body fn))
    /\ after st' = (after st ++ [decodeResponse None])%list
    /\ JS.includes "var typ undefined" (decodeResponse None) = true
    /\ JS.includes "json.NewDecoder(res.Body).Decode(&typ)" (decodeResponse None) = true
    /\ JS.includes "return res, typ, nil" (decodeResponse None) = true.
Proof.
  intros Hfn Hres Hbody. unfold generateFuncReturns. rewrite Hres, Hbody.
  eexists. split; [reflexivity|]. cbn [gomodule after].
  split; [|split; [reflexivity | now vm_compute]].
  rewrite (findFunc_returns _ _ "error" _ _
             (findFunc_returns _ _ "*http.Response" _ _ Hfn)).
  cbn [fn_name fn_receiver fn_args fn_returns fn_body].
  now rewrite <- app_assoc.
Qed.

Lemma generateFuncReturns_bodyless_success_witness :
  exists st',
    generateFuncReturns "endpoints.go" mDelete (stateFor "endpoints.go" "DeleteUsers")
    = Returned (tt, st')
    /\ returnsOf "endpoints.go" "DeleteUsers" (gomodule st') = ["*http.Response"; "error"]
    /\ after st' = [decodeResponse None]
    /\ JS.includes "return res, typ, nil" (decodeResponse None) = true.
Proof.
  destruct (generateFuncReturns_bodyless_success
              "endpoints.go" mDelete (mkResponse "204" [])
              (stateFor "endpoints.go" "DeleteUsers")
              (mkFunc "DeleteUsers" None [] [] []) eq_refl eq_refl eq_refl)
    as (st' & Hrun & Hfn & Hafter & _ & _ & Hret).
  exists st'. split; [exact Hrun|]. split; [|split; [exact Hafter | exact Hret]].
  unfold returnsOf. unfold stateFor in Hfn. cbn [func] in Hfn. rewrite Hfn. reflexivity.
Defined.

(** The whole function for the same delete: two return types in the
    signature, three returned values in the text. *)
Example method_bodyless_success_text :
  exists st',
    method printCall 0 "endpoints.go" emptyApi rUsers mDelete (initialState emptyModule)
    = Returned (tt, st')
    /\ returnsOf "endpoints.go" "DeleteUsers" (gomodule st') = ["*http.Response"; "error"]
    /\ forallb (JS.includes "return res, typ, nil")
               (bodyOf "endpoints.go" "DeleteUsers" (gomodule st')) = true
    /\ length (bodyOf "endpoints.go" "DeleteUsers" (gomodule st')) = 1.
Proof. eexists. split; [vm_compute; reflexivity | now vm_compute]. Qed.

(* ================================================================== *)
(** * Properties: request bodies *)
(* ================================================================== *)

(** C1, as stated, fails: generating an operation whose first body is
    multipart, or plain text, completes.  The function is emitted
    without a payload argument and without any body option; the text
    kind only leaves a line on the error console. *)
Lemma method_unsupported_body_completes :
  (exists st',
     method printCall 0 "endpoints.go" emptyApi rUsers mUpload (initialState emptyModule)
     = Returned (tt, st')
     /\ argsOf "endpoints.go" "CreateUser" (gomodule st') = []
     /\ returnsOf "endpoints.go" "CreateUser" (gomodule st')
        = ["*http.Response"; "User"; "error"]
     /\ options st' = [] /\ console st' = [])
  /\ (exists st',
        method printCall 0 "endpoints.go" emptyApi rUsers mText (initialState emptyModule)
        = Returned (tt, st')
        /\ argsOf "endpoints.go" "CreateUser" (gomodule st') = []
        /\ options st' = []
        /\ console st' = [("Unknown body type:", textBody)]).
Proof.
  split; eexists; (split; [vm_compute; reflexivity | now vm_compute]).
Qed.

(** C1, amended: for a method whose first body has a content kind other
    than [application/json], the body step does not fail.  It returns
    and leaves the module, the function under construction and the three
    collectors as they were (no payload argument, no serialization, no
    request option); for [multipart/form-data] it does nothing at all,
    for any other kind it reports the body on the error console, and
    generation goes on. *)
Theorem generateBodyParams_other_kind
        (fuel : nat) (file : string) (api : Api) (m : Method)
        (body : TypeDeclaration) (st : State) :
  firstBody m = Some body ->
  displayName body <> Some "application/json" ->
  exists st',
    generateBodyParams fuel file api m st = Returned (tt, st')
    /\ gomodule st' = gomodule st /\ func st' = func st
    /\ options st' = options st /\ before st' = before st /\ after st' = after st
    /\ console st'
       = if match displayName body with
            | Some kind => String.eqb kind "multipart/form-data"
            | None => false
            end
         then console st
         else (console st ++ [("Unknown body type:", body)])%list.
Proof.
  intros Hb Hk. unfold generateBodyParams. rewrite Hb.
  destruct (displayName body) as [kind|].
  - destruct (String.eqb kind "application/json") eqn:E.
    + apply String.eqb_eq in E. subst kind. now elim Hk.
    + destruct (String.eqb kind "multipart/form-data").
      * exists st. destruct st. now repeat split.
      * eexists. split; [reflexivity|]. now repeat split.
  - eexists. split; [reflexivity|]. now repeat split.
Qed.

Lemma generateBodyParams_other_kind_witness :
  exists st',
    generateBodyParams 0 "endpoints.go" emptyApi mText (stateFor "endpoints.go" "CreateUser")
    = Returned (tt, st')
    /\ gomodule st' = gomodule (stateFor "endpoints.go" "CreateUser")
    /\ console st' = [("Unknown body type:", textBody)].
Proof.
  destruct (generateBodyParams_other_kind
              0 "endpoints.go" emptyApi mText textBody
              (stateFor "endpoints.go" "CreateUser") eq_refl)
    as (st' & Hrun & Hmod & _ & _ & _ & _ & Hcon).
  - discriminate.
  - exists st'. split; [exact Hrun|]. split; [exact Hmod | exact Hcon].
Defined.

(* ================================================================== *)
(** * Properties: struct generation *)
(* ================================================================== *)

Section GenFacts.

Lemma bind_returned {A B : Type} (c : Gen A) (k : A -> Gen B) (st : State)
      (r : B * State) :
  bind c k st = Returned r ->
  exists a st1, c st = Returned (a, st1) /\ k a st1 = Returned r.
Proof.
  unfold bind. destruct (c st) as [[a st1]| |]; try discriminate.
  intros H. now exists a, st1.
Qed.


Variables (file : string) (api : Api) (struct : string).

(** A set of object types closed under one step along the supertype
    chain: each has a supertype, found by name in the API, that is in
    the set again.  The types of an inheritance cycle form such a set. *)
Variable onCycle : TypeDeclaration -> Prop.

Hypothesis onCycle_step :
  forall t, onCycle t ->
    exists props sub t',
      properties t = Some props
      /\ In sub (type_ t)
      /\ find (fun d => String.eqb (name d) sub) (types api) = Some t'
      /\ onCycle t'.


End GenFacts.




Lemma forEach_never_OutOfFuel {A : Type} (f : A -> Gen unit) (l : list A) :
  (forall x st, In x l -> f x st <> OutOfFuel) ->
  forall st, forEach l f st <> OutOfFuel.
Proof.
  induction l as [|y rest IH]; intros Hf st; [discriminate|].
  cbn [forEach]. unfold bind.
  destruct (f y st) as [[u st1]| |] eqn:E.
  - apply IH. intros x st2 Hx. apply Hf. now right.
  - discriminate.
  - exfalso. exact (Hf y st (or_introl eq_refl) E).
Qed.

(** On a model whose supertype chain is well founded, measured by a rank
    that every step along the chain lowers, the flattening stops: a
    bound above the rank is never hit. *)
Theorem gen_stops_when_ranked
        (file : string) (api : Api) (struct : string) (rank : TypeDeclaration -> nat) :
  (forall t sub t',
     In sub (type_ t) ->
     find (fun d => String.eqb (name d) sub) (types api) = Some t' ->
     rank t' < rank t) ->
  forall fuel t st, rank t < fuel -> gen fuel file api struct t st <> OutOfFuel.
Proof.
  intros Hrank. induction fuel as [|fuel IH]; intros t st Hlt; [lia|].
  cbn [gen]. destruct (properties t) as [props|]; [|discriminate].
  unfold bind at 1.
  match goal with |- context [forEach props ?f st] =>
    pose proof (forEach_never_OutOfFuel f props) as Hprops;
    destruct (forEach props f st) as [[u st1]| |] eqn:E
  end.
  - apply forEach_never_OutOfFuel. intros sub st2 Hin.
    destruct (find _ (types api)) as [t'|] eqn:Hf; [|discriminate].
    apply IH. specialize (Hrank t sub t' Hin Hf). lia.
  - discriminate.
  - exfalso. revert E. apply Hprops. intros prop st2 _.
    unfold bind, lift, obind. pose proof (translateType_never_OutOfFuel prop) as Hn.
    destruct (translateType prop); [discriminate | discriminate | now elim Hn].
Qed.

(* ================================================================== *)
(** * Properties: paths *)
(* ================================================================== *)

Lemma translateType_returns (t : TypeDeclaration) (p : string) :
  elementName t = Some p -> exists s, translateType t = Returned s.
Proof.
  unfold elementName, translateType.
  destruct (type_ t) as [|primary rest]; [discriminate|].
  destruct (String.eqb primary "array").
  - destruct (items t) as [it|]; [|discriminate].
    destruct (type_ it); [discriminate|]. intros _. now eexists.
  - intros _. now eexists.
Qed.

(** The path arguments are the parameters after the first, one argument
    each and in their order, named by [translatePropName]; they exist as
    soon as every such parameter names its type. *)
Lemma getPathFmtArgs_parameters_after_first (resource : Resource) :
  (forall p, In p (skipn 1 (absoluteUriParameters resource)) ->
             exists n, elementName p = Some n) ->
  exists args,
    getPathFmtArgs resource = Returned args
    /\ map arg_name args
       = map (fun p => translatePropName (name p) false)
             (skipn 1 (absoluteUriParameters resource))
    /\ map (fun a => Returned (arg_type a)) args
       = map translateType (skipn 1 (absoluteUriParameters resource)).
Proof.
  unfold getPathFmtArgs.
  induction (skipn 1 (absoluteUriParameters resource)) as [|p ps IH]; intros Hall.
  - now exists [].
  - destruct (Hall p (or_introl eq_refl)) as (n & Hn).
    destruct (translateType_returns p n Hn) as (ty & Hty).
    destruct IH as (args & Hargs & Hnames & Htypes).
    { intros q Hq. apply Hall. now right. }
    exists (mkArg (translatePropName (name p) false) ty :: args).
    cbn [mapOutcome map arg_name arg_type]. rewrite Hty. cbn [obind].
    rewrite Hargs. cbn [obind]. now rewrite Hnames, Htypes.
Qed.

(** A resource with no parameter beyond the first has no path argument,
    and its path expression is the quoted address itself. *)
Lemma getPathFmtArgs_base_only (resource : Resource) :
  length (absoluteUriParameters resource) <= 1 ->
  getPathFmtArgs resource = Returned []
  /\ forall (Call_toString : Call -> string) (file : string) (st : State),
       getPathFmtCall Call_toString file resource st
       = Returned (JS.dq ++ JS.replaceFirst "{version}" "1" (absoluteUri resource)
                   ++ JS.dq ++ " + q", st).
Proof.
  intros Hlen.
  assert (Hskip : skipn 1 (absoluteUriParameters resource) = []).
  { destruct (absoluteUriParameters resource) as [|p [|q l]];
      [reflexivity | reflexivity | cbn in Hlen; lia]. }
  assert (Hargs : getPathFmtArgs resource = Returned [])
    by (unfold getPathFmtArgs; now rewrite Hskip).
  split; [exact Hargs|]. intros C file st.
  unfold getPathFmtCall, bind, lift. now rewrite Hargs.
Qed.

(** The placeholder is [%d] for the kind [number] and [%s] for every
    other kind. *)
Lemma placeholder_number_only (param : TypeDeclaration) :
  placeholder param = if match type_ param with
                         | primary :: _ => String.eqb primary "number"
                         | [] => false
                         end
                      then "%d" else "%s".
Proof. unfold placeholder. destruct (type_ param); reflexivity. Qed.

(** C8, on the code: the path arguments are the parameters after the
    first, but an [integer] parameter, which the generator types as the
    Go [int], is given the string placeholder: only the kind spelled
    [number] gets [%d]. *)
Theorem pathFormat_integer_parameter :
  getPathFmtArgs rUser = Returned [mkArg "id" "int"]
  /\ pathFormat rUser = "https://example.com/api/v1/users/%s"
  /\ getPathFmtArgs rUsers = Returned []
  /\ (forall (param : TypeDeclaration) (rest : list string),
        type_ param = "integer" :: rest -> placeholder param = "%s")
  /\ (forall (param : TypeDeclaration) (rest : list string),
        type_ param = "number" :: rest -> placeholder param = "%d").
Proof.
  split; [reflexivity|]. split; [reflexivity|]. split; [reflexivity|].
  split; intros param rest H; unfold placeholder; now rewrite H.
Qed.

(** The path expression of that resource, with a printer that writes a
    call as its callee and the names of its arguments. *)
Example getPathFmtCall_integer_parameter :
  getPathFmtCall printCall "endpoints.go" rUser (initialState emptyModule)
  = Returned ("fmt.Sprintf(" ++ JS.dq ++ "https://example.com/api/v1/users/%s" ++ JS.dq
              ++ ", id) + q",
              initialState (File_import "endpoints.go" "fmt" emptyModule)).
Proof. reflexivity. Qed.

Lemma pathFormat_integer_parameter_witness :
  placeholder pId = "%s" /\ translateType pId = Returned "int".
Proof.
  split; [|reflexivity].
  exact (proj1 (proj2 (proj2 (proj2 pathFormat_integer_parameter))) pId [] eq_refl).
Defined.

(* ================================================================== *)
(** * Properties: query parameters *)
(* ================================================================== *)

Section QueryFacts.

Lemma hasStruct_find (sname : string) (f : File) :
  hasStruct sname f = true ->
  exists s, find (fun s => String.eqb (s_name s) sname) (structs f) = Some s.
Proof.
  unfold hasStruct. induction (structs f) as [|s rest IH]; [discriminate|].
  cbn [existsb find]. destruct (String.eqb (s_name s) sname); [now eexists | exact IH].
Qed.

Lemma find_absent_app (sname : string) (l : list Struct) :
  existsb (fun s => String.eqb (s_name s) sname) l = false ->
  find (fun s => String.eqb (s_name s) sname) (l ++ [mkStruct sname []])
  = Some (mkStruct sname []).
Proof.
  induction l as [|s rest IH]; cbn [existsb find app s_name].
  - now rewrite String.eqb_refl.
  - destruct (String.eqb (s_name s) sname); [discriminate | exact IH].
Qed.

(** Obtain-or-create: the struct of that name afterwards is the one
    there was, or a new one without fields. *)
Lemma findStruct_File_struct (path sname : string) (m : GoModule) :
  findStruct path sname (File_struct path sname m)
  = Some (match findStruct path sname m with
          | Some s => s
          | None => mkStruct sname []
          end).
Proof.
  unfold File_struct. destruct (hasStruct sname (Module_file path m)) eqn:E.
  - destruct (hasStruct_find _ _ E) as (s & Hs). unfold findStruct. now rewrite Hs.
  - unfold findStruct at 1.
    assert (Hreg : forall x m', Module_file path (register x m') = Module_file path m').
    { intros x m'. unfold register. now destruct (mem x (identifiers m')). }
    rewrite Hreg, Module_file_withFile. cbn [structs].
    unfold hasStruct in E. rewrite (find_absent_app _ _ E).
    unfold findStruct.
    destruct (find _ (structs (Module_file path m))) as [s|] eqn:F; [|reflexivity].
    exfalso. apply find_some in F as [Hin Hn].
    assert (existsb (fun s => String.eqb (s_name s) sname)
                    (structs (Module_file path m)) = true)
      by (apply existsb_exists; now exists s).
    congruence.
Qed.

Lemma findStruct_withFunc (path sname fname : string) (g : Func -> Func) (m : GoModule) :
  findStruct path sname (withFunc path fname g m) = findStruct path sname m.
Proof. unfold findStruct, withFunc. now rewrite Module_file_withFile. Qed.

Lemma findStruct_Struct_field (path sname : string) (fld : Field) (m : GoModule) :
  findStruct path sname (Struct_field path sname fld m)
  = option_map (addField fld) (findStruct path sname m).
Proof.
  unfold findStruct, Struct_field. rewrite Module_file_withFile. cbn [structs].
  induction (structs (Module_file path m)) as [|s rest IH]; [reflexivity|].
  cbn [map find]. destruct (String.eqb (s_name s) sname) eqn:E.
  - cbn [s_name]. now rewrite E.
  - rewrite E. exact IH.
Qed.

Lemma findStruct_fields (path sname : string) (flds : list Field) :
  forall m,
    findStruct path sname (fold_left (fun m fld => Struct_field path sname fld m) flds m)
    = option_map (fun s => mkStruct (s_name s) (s_fields s ++ flds)%list)
                 (findStruct path sname m).
Proof.
  induction flds as [|fld rest IH]; intros m; cbn [fold_left].
  - destruct (findStruct path sname m) as [[n fs]|]; [|reflexivity].
    cbn [option_map s_name s_fields]. now rewrite app_nil_r.
  - rewrite IH, findStruct_Struct_field.
    destruct (findStruct path sname m) as [[n fs]|]; [|reflexivity].
    cbn [option_map addField s_name s_fields]. now rewrite <- app_assoc.
Qed.

(** The loop of [generateQueryParams] over the parameters. *)
Lemma forEach_queryParams (file type : string) (params : list TypeDeclaration) :
  (forall p, In p params -> type_ p <> []) ->
  forall st,
    forEach params (fun prop =>
      let propName := translatePropName (name prop) true in
      primary <- lift (firstOrThrow (type_ prop)) ;;
      onModule (Struct_field file type
                  (mkField propName (translateTypeString primary) None)) ;;
      before_write ("v.Set(" ++ JS.dq ++ name prop ++ JS.dq ++ ", query." ++ propName
                    ++ ")" ++ JS.nl)) st
    = Returned (tt, mkState
                      (fold_left (fun m fld => Struct_field file type fld m)
                                 (map queryField params) (gomodule st))
                      (console st) (func st) (options st)
                      (before st ++ map queryLine params)%list (after st)).
Proof.
  induction params as [|p ps IH]; intros Hty st.
  - cbn [forEach map fold_left ret]. rewrite app_nil_r. now destruct st.
  - cbn [forEach]. unfold bind at 1.
    destruct (type_ p) as [|primary rest] eqn:Ep.
    { exfalso. exact (Hty p (or_introl eq_refl) Ep). }
    unfold bind at 1, lift, firstOrThrow, obind.
    unfold bind at 1, onModule, before_write, WriteCollector_write.
    rewrite IH by (intros q Hq; apply Hty; now right).
    cbn [gomodule console func options before after map fold_left].
    unfold queryField at 3, queryLine at 2. rewrite Ep. cbn [hd].
    now rewrite <- app_assoc.
Qed.

End QueryFacts.

(** In the [Request] class the query step does what C5 says.  Without
    query parameters, own or from traits, it only writes the empty
    query-string constant: no struct, no argument, no import. *)
Lemma generateQueryParams_no_parameters (file : string) (m : Method) (st : State) :
  allQueryParameters m = [] ->
  generateQueryParams file m st
  = Returned (tt, mkState (gomodule st) (console st) (func st) (options st)
                          (before st ++ [emptyQuery])%list (after st)).
Proof. intros H. unfold generateQueryParams. now rewrite H. Qed.

(** With query parameters it obtains the parameter struct, the one
    already declared under that name if there is one, appends one field
    per parameter in order, and writes the serialization, one line per
    parameter. *)
Lemma generateQueryParams_parameters (file : string) (m : Method) (st : State) :
  allQueryParameters m <> [] ->
  (forall p, In p (allQueryParameters m) -> type_ p <> []) ->
  exists st',
    generateQueryParams file m st = Returned (tt, st')
    /\ findStruct file (func st ++ "Params") (gomodule st')
       = Some (mkStruct
                 (match findStruct file (func st ++ "Params") (gomodule st) with
                  | Some s => s_name s
                  | None => func st ++ "Params"
                  end)
                 (match findStruct file (func st ++ "Params") (gomodule st) with
                  | Some s => s_fields s
                  | None => []
                  end ++ map queryField (allQueryParameters m))%list)
    /\ before st'
       = (before st ++ ("v := url.Values{}" ++ JS.nl)%string
                    :: map queryLine (allQueryParameters m)
                    ++ [("q := " ++ JS.dq ++ "?" ++ JS.dq ++ " + v.Encode()" ++ JS.nl)%string])%list.
Proof.
  intros Hne Hty. unfold generateQueryParams.
  destruct (allQueryParameters m) as [|q qs] eqn:E; [now elim Hne|].
  unfold bind at 1, onModule at 1. unfold bind at 1, getState.
  cbn [func gomodule console options before after].
  unfold bind at 1, onModule at 1. unfold bind at 1, onModule at 1.
  unfold bind at 1, before_write at 1.
  unfold bind at 1.
  rewrite forEach_queryParams by exact Hty.
  unfold before_write, WriteCollector_write.
  cbn [func gomodule console options before after].
  eexists. split; [reflexivity|]. cbn [gomodule before]. split.
  - rewrite findStruct_fields. unfold Func_arg, Func_addArgs.
    rewrite findStruct_withFunc, findStruct_File_struct.
    assert (Himp : findStruct file (func st ++ "Params")
                              (File_import file "net/url" (gomodule st))
                   = findStruct file (func st ++ "Params") (gomodule st)).
    { unfold findStruct, File_import. rewrite Module_file_withFile.
      now destruct (mem "net/url" (imports (Module_file file (gomodule st)))). }
    rewrite Himp.
    now destruct (findStruct file (func st ++ "Params") (gomodule st)) as [[n fs]|].
  - rewrite <- !app_assoc. reflexivity.
Qed.

(** C5, on the code: in the inline generator a method without query
    parameters gets no parameter struct and no [params] argument, but
    its text still serializes [params]: the test that guards the empty
    query-string constant is made on the array itself, which always
    counts as true, so the constant is never written.  The [Request]
    class, on the same method, writes the constant and nothing else. *)
Theorem Inline_no_query_parameters_still_encoded :
  (exists st',
     Inline.generateMethods "endpoints.go" rUsersListing (initialState emptyModule)
     = Returned (tt, st')
     /\ argsOf "endpoints.go" "GetUsers" (gomodule st') = []
     /\ structs (Module_file "endpoints.go" (gomodule st')) = []
     /\ mem Inline.encodeQuery (bodyOf "endpoints.go" "GetUsers" (gomodule st')) = true
     /\ mem Inline.emptyQuery (bodyOf "endpoints.go" "GetUsers" (gomodule st')) = false
     /\ mem "github.com/google/go-querystring"
            (imports (Module_file "endpoints.go" (gomodule st'))) = true)
  /\ generateQueryParams "endpoints.go" mList (stateFor "endpoints.go" "GetUser")
     = Returned (tt, mkState (File_func "endpoints.go" "GetUser" emptyModule) []
                             "GetUser" [] [emptyQuery] []).
Proof.
  split; [|reflexivity].
  eexists. split; [vm_compute; reflexivity | now vm_compute].
Qed.

(* ================================================================== *)
(** * Properties: the recursion of [translateTypeString] *)
(* ================================================================== *)

Section TranslateTypeStringFacts.

Lemma length_substring_0 (s : string) :
  forall m, m <= String.length s -> String.length (substring 0 m s) = m.
Proof.
  induction s as [|c r IH]; intros m Hm; cbn in Hm.
  - assert (m = 0) by lia. now subst.
  - destruct m as [|m]; [reflexivity|]. cbn. rewrite IH by lia. reflexivity.
Qed.

Lemma endsWith_length (p s : string) :
  JS.endsWith p s = true -> String.length p <= String.length s.
Proof.
  unfold JS.endsWith. intros H. apply andb_true_iff in H as [H _].
  now apply Nat.leb_le.
Qed.

Lemma length_sliceDropLast (k : nat) (s : string) :
  String.length (JS.sliceDropLast k s) = String.length s - k.
Proof. unfold JS.sliceDropLast. apply length_substring_0. lia. Qed.

(** Any two amounts of fuel that cover the length of the string give
    the same translation. *)
Lemma translateTypeStringFuel_enough (n : nat) :
  forall f1 f2 str,
    String.length str <= n -> String.length str <= f1 -> String.length str <= f2 ->
    translateTypeStringFuel f1 str = translateTypeStringFuel f2 str.
Proof.
  induction n as [|n IH]; intros f1 f2 str Hn H1 H2.
  - destruct str; [|cbn in Hn; lia].
    destruct f1, f2; reflexivity.
  - destruct f1 as [|f1], f2 as [|f2]; cbn [translateTypeStringFuel]; try reflexivity.
    + destruct (JS.endsWith "[]" str) eqn:E; [|reflexivity].
      apply endsWith_length in E. cbn in E. lia.
    + destruct (JS.endsWith "[]" str) eqn:E; [|reflexivity].
      apply endsWith_length in E. cbn in E. lia.
    + destruct (JS.endsWith "[]" str) eqn:E; [|reflexivity].
      apply endsWith_length in E. cbn in E.
      f_equal. apply IH; rewrite length_sliceDropLast; lia.
Qed.

(** The model follows the recursion of the source: a trailing pair of
    brackets becomes a leading one and the rest is translated in turn;
    a union becomes the empty interface; a known scalar its Go type;
    any other name stays. *)
Theorem translateTypeString_unfold (str : string) :
  translateTypeString str
  = if JS.endsWith "[]" str
    then "[]" ++ translateTypeString (JS.sliceDropLast 2 str)
    else if JS.includes "|" str then "interface{}"
         else match scalarTable str with
              | Some go => go
              | None => str
              end.
Proof.
  unfold translateTypeString.
  destruct (JS.endsWith "[]" str) eqn:E.
  - pose proof (endsWith_length _ _ E) as Hl. cbn in Hl.
    destruct (String.length str) as [|n] eqn:El; [lia|].
    cbn [translateTypeStringFuel]. rewrite E. f_equal.
    apply (translateTypeStringFuel_enough n);
      rewrite ?length_sliceDropLast; lia.
  - destruct (String.length str); cbn [translateTypeStringFuel]; now rewrite ?E.
Qed.

End TranslateTypeStringFacts.

(* ================================================================== *)
(** * Further properties: the acronym pass and the resolved names *)
(* ================================================================== *)

Section CaseFacts.

Lemma length_app (a b : string) :
  String.length (a ++ b) = String.length a + String.length b.
Proof. induction a as [|c r IH]; cbn; [reflexivity | now rewrite IH]. Qed.

Lemma toUpperCase_app (a b : string) :
  JS.toUpperCase (a ++ b) = JS.toUpperCase a ++ JS.toUpperCase b.
Proof. induction a as [|c r IH]; cbn; [reflexivity | now rewrite IH]. Qed.

Lemma allChars_app (p : ascii -> bool) (a b : string) :
  allChars p (a ++ b) = allChars p a && allChars p b.
Proof.
  induction a as [|c r IH]; cbn; [reflexivity|]. now rewrite IH, andb_assoc.
Qed.

Lemma length_sliceFrom (s : string) :
  forall k, String.length (JS.sliceFrom k s) = String.length s - k.
Proof.
  induction s as [|c r IH]; intros k.
  - destruct k; reflexivity.
  - destruct k as [|k]; [now rewrite sliceFrom_0|].
    rewrite sliceFrom_cons, IH. reflexivity.
Qed.

Lemma prefix_length (p : string) :
  forall s, prefix p s = true -> String.length p <= String.length s.
Proof.
  induction p as [|a p' IH]; intros s H; [cbn; lia|].
  destruct s as [|b s']; [discriminate|].
  cbn [prefix] in H. destruct (ascii_dec a b); [|discriminate].
  cbn. apply IH in H. lia.
Qed.

Lemma prefix_split (p : string) :
  forall s, prefix p s = true -> s = p ++ JS.sliceFrom (String.length p) s.
Proof.
  induction p as [|a p' IH]; intros s H.
  - cbn. now rewrite sliceFrom_0.
  - destruct s as [|b s']; [discriminate|].
    cbn [prefix] in H. destruct (ascii_dec a b) as [->|]; [|discriminate].
    cbn [String.length append]. rewrite sliceFrom_cons. f_equal. now apply IH.
Qed.

(** A pattern that does not occur is not replaced. *)
Lemma replaceAll_absent (needle rep : string) (s : string) :
  JS.includes needle s = false -> JS.replaceAllFrom needle rep 0 s = s.
Proof.
  induction s as [|c r IH]; intros H; [reflexivity|].
  rewrite includes_cons in H. apply orb_false_iff in H as [Hp Hr].
  cbn [JS.replaceAllFrom]. rewrite Hp. f_equal. now apply IH.
Qed.

(** A replacement by a text of the same length keeps the length. *)
Lemma length_replaceAllFrom (a : ascii) (needle' rep : string) (s : string) :
  String.length rep = S (String.length needle') ->
  forall k, String.length (JS.replaceAllFrom (String a needle') rep k s)
            = String.length s - k.
Proof.
  intros Hlen. induction s as [|c r IH]; intros k.
  - destruct k; reflexivity.
  - destruct k as [|k]; cbn [JS.replaceAllFrom]; [|now rewrite IH].
    destruct (prefix (String a needle') (String c r)) eqn:Hp.
    + apply prefix_length in Hp. cbn [String.length] in Hp |- *.
      rewrite length_app, IH, Hlen. lia.
    + cbn [String.length]. rewrite IH. lia.
Qed.

(** A replacement by the same text in another case changes case only. *)
Lemma toUpperCase_replaceAllFrom (a : ascii) (needle' rep : string) (s : string) :
  JS.toUpperCase rep = JS.toUpperCase (String a needle') ->
  forall k, JS.toUpperCase (JS.replaceAllFrom (String a needle') rep k s)
            = JS.toUpperCase (JS.sliceFrom k s).
Proof.
  intros Hup. induction s as [|c r IH]; intros k.
  - destruct k; reflexivity.
  - destruct k as [|k]; cbn [JS.replaceAllFrom].
    + rewrite sliceFrom_0.
      destruct (prefix (String a needle') (String c r)) eqn:Hp.
      * rewrite toUpperCase_app, IH, Hup, <- toUpperCase_app.
        f_equal. etransitivity; [|symmetry; exact (prefix_split _ _ Hp)].
        cbn [String.length]. rewrite sliceFrom_cons.
        now replace (S (String.length needle') - 1) with (String.length needle') by lia.
      * cbn [JS.toUpperCase]. now rewrite IH, sliceFrom_0.
    + now rewrite sliceFrom_cons.
Qed.

Lemma allChars_replaceAllFrom (p : ascii -> bool) (needle rep : string) (s : string) :
  allChars p rep = true ->
  forall k, allChars p s = true -> allChars p (JS.replaceAllFrom needle rep k s) = true.
Proof.
  intros Hrep. induction s as [|c r IH]; intros k H.
  - destruct k; reflexivity.
  - cbn [allChars] in H. apply andb_true_iff in H as [Hc Hr].
    destruct k as [|k]; cbn [JS.replaceAllFrom]; [|now apply IH].
    destruct (prefix needle (String c r)).
    + rewrite allChars_app, Hrep. now apply IH.
    + cbn [allChars]. rewrite Hc. now apply IH.
Qed.

Lemma fixCaps_unfold (s : string) :
  fixCaps s = JS.replaceAllFrom "Oauth" "OAuth" 0 (JS.replaceAllFrom "Id" "ID" 0 s).
Proof. reflexivity. Qed.

Lemma length_fixCaps (s : string) : String.length (fixCaps s) = String.length s.
Proof.
  rewrite fixCaps_unfold.
  rewrite (length_replaceAllFrom "O" "auth" "OAuth") by reflexivity.
  rewrite (length_replaceAllFrom "I" "d" "ID") by reflexivity. lia.
Qed.

Lemma allChars_fixCaps (p : ascii -> bool) (s : string) :
  allChars p "ID" = true -> allChars p "OAuth" = true ->
  allChars p s = true -> allChars p (fixCaps s) = true.
Proof.
  intros H1 H2 H. rewrite fixCaps_unfold.
  apply allChars_replaceAllFrom; [exact H2|].
  now apply allChars_replaceAllFrom.
Qed.

(** A result without [I] and [O] was not touched by the pass. *)
Lemma fixCaps_untouched (z t : string) :
  lacks "I" t = true -> lacks "O" t = true -> fixCaps z = t -> z = t.
Proof.
  intros HI HO H.
  assert (Hp : prefix t z = true).
  { rewrite <- (prefix_fixCaps t z HI HO), H.
    clear. induction t as [|c r IH]; [reflexivity|].
    cbn [prefix]. destruct (ascii_dec c c); [exact IH | congruence]. }
  pose proof (length_fixCaps z) as Hl. rewrite H in Hl.
  rewrite (prefix_split _ _ Hp).
  pose proof (length_sliceFrom z (String.length t)) as Hs.
  destruct (JS.sliceFrom (String.length t) z) as [|c r].
  - clear. induction t as [|c r IH]; cbn; [reflexivity | now rewrite IH].
  - cbn [String.length] in Hs. lia.
Qed.

End CaseFacts.

(** X1: the acronym pass is idempotent: a string that went through it
    is left as it is by a second pass. *)
Theorem fixCaps_idempotent (s : string) : fixCaps (fixCaps s) = fixCaps s.
Proof.
  rewrite (fixCaps_unfold (fixCaps s)).
  assert (HId : JS.includes "Id" (fixCaps s) = false)
    by (rewrite fixCaps_unfold; apply replaceAll_Oauth_keeps_Id_free, replaceAll_Id_none).
  assert (HOauth : JS.includes "Oauth" (fixCaps s) = false)
    by (rewrite fixCaps_unfold; apply replaceAll_Oauth_none).
  rewrite (replaceAll_absent "Id" "ID" _ HId).
  exact (replaceAll_absent "Oauth" "OAuth" _ HOauth).
Qed.

(** X2: the acronym pass changes the case of letters and nothing else:
    the result has the length of the input and is the same string once
    both are upper-cased. *)
Theorem fixCaps_changes_case_only (s : string) :
  String.length (fixCaps s) = String.length s
  /\ JS.toUpperCase (fixCaps s) = JS.toUpperCase s.
Proof.
  split; [apply length_fixCaps|].
  rewrite fixCaps_unfold.
  rewrite (toUpperCase_replaceAllFrom "O" "auth" "OAuth") by reflexivity.
  rewrite sliceFrom_0.
  rewrite (toUpperCase_replaceAllFrom "I" "d" "ID") by reflexivity.
  now rewrite sliceFrom_0.
Qed.

Section NameFacts.

Lemma isAlnum_toUpperChar (c : ascii) : JS.isAlnum (JS.toUpperChar c) = JS.isAlnum c.
Proof. destruct c as [[] [] [] [] [] [] [] []]; reflexivity. Qed.

Lemma allChars_upperFirst (s : string) :
  allChars JS.isAlnum s = true -> allChars JS.isAlnum (upperFirst s) = true.
Proof.
  destruct s as [|c r]; [now rewrite upperFirst_empty|].
  rewrite upperFirst_cons. cbn [allChars]. now rewrite isAlnum_toUpperChar.
Qed.

Lemma splitNonAlnumFrom_alnum (s : string) :
  forall inSep cur,
    allChars JS.isAlnum cur = true ->
    Forall (fun seg => allChars JS.isAlnum seg = true) (JS.splitNonAlnumFrom inSep cur s).
Proof.
  induction s as [|c r IH]; intros inSep cur Hcur; cbn [JS.splitNonAlnumFrom].
  - now constructor.
  - destruct (JS.isAlnum c) eqn:Hc.
    + apply IH. rewrite allChars_app, Hcur. cbn [allChars]. now rewrite Hc.
    + destruct inSep; [now apply IH|]. constructor; [exact Hcur | now apply IH].
Qed.

Lemma join_alnum (segs : list string) :
  Forall (fun seg => allChars JS.isAlnum seg = true) segs ->
  allChars JS.isAlnum (JS.join "" segs) = true.
Proof.
  unfold JS.join. induction 1 as [|x l Hx Hl IH]; [reflexivity|].
  cbn [String.concat]. destruct l as [|y l']; [exact Hx|].
  cbn [append]. rewrite allChars_app, Hx. exact IH.
Qed.

Lemma capitalized_alnum (name : string) (isExported : bool) :
  allChars JS.isAlnum (capitalized name isExported) = true.
Proof.
  unfold capitalized. apply join_alnum.
  pose proof (splitNonAlnumFrom_alnum name false "" eq_refl) as H.
  unfold JS.splitNonAlnum. destruct H as [|x l Hx Hl]; [constructor|].
  cbn [capitalizeSegments]. constructor.
  - destruct isExported; [now apply allChars_upperFirst | exact Hx].
  - clear Hx. induction Hl as [|y l' Hy Hl' IH]; cbn [map]; constructor;
      [now apply allChars_upperFirst | exact IH].
Qed.

Lemma stripNonAlnum_alnum (s : string) : allChars JS.isAlnum (JS.stripNonAlnum s) = true.
Proof.
  induction s as [|c r IH]; [reflexivity|]. cbn [JS.stripNonAlnum].
  destruct (JS.isAlnum c) eqn:Hc; [|exact IH]. cbn [allChars]. now rewrite Hc.
Qed.

End NameFacts.

(** X3: whatever the raw name and the export flag, the resolved name is
    made of ASCII letters and digits only (it may be empty, for a name
    without any, and it may begin with a digit). *)
Theorem translatePropName_alphanumeric (name : string) (isExported : bool) :
  allChars JS.isAlnum (translatePropName name isExported) = true.
Proof.
  unfold translatePropName.
  apply allChars_fixCaps; [reflexivity | reflexivity |].
  destruct (String.eqb (capitalized name isExported) "type"); [reflexivity|].
  apply capitalized_alnum.
Qed.

(** X4: the resolver never yields the reserved word [type], for any raw
    name and either export flag. *)
Theorem translatePropName_never_type (name : string) (isExported : bool) :
  translatePropName name isExported <> "type".
Proof.
  unfold translatePropName. intros H.
  apply (fixCaps_untouched _ "type" eq_refl eq_refl) in H.
  destruct (String.eqb (capitalized name isExported) "type") eqn:E; [discriminate|].
  apply String.eqb_neq in E. contradiction.
Qed.

(** X9: a function name inferred for a method without a declared name is
    made of ASCII letters and digits only, whatever the address of the
    resource, the verb and the name of the response type. *)
Theorem inferMethodName_alphanumeric (resource : Resource) (m : Method) :
  m_displayName m = None ->
  allChars JS.isAlnum (inferMethodName resource m) = true.
Proof.
  intros Hn. unfold inferMethodName. rewrite Hn.
  match goal with
  | |- context [fixCaps ?x] =>
      assert (Ht : allChars JS.isAlnum (fixCaps x) = true)
        by (apply allChars_fixCaps; [reflexivity | reflexivity | ];
            apply stripNonAlnum_alnum);
      generalize dependent (fixCaps x)
  end.
  intros tail Ht.
  repeat match goal with
         | |- context [String.eqb ?v ?k] => destruct (String.eqb v k)
         end; cbn [append allChars]; try exact Ht; reflexivity.
Qed.

Lemma inferMethodName_alphanumeric_witness :
  allChars JS.isAlnum (inferMethodName rUser mDelete) = true.
Proof. exact (inferMethodName_alphanumeric rUser mDelete eq_refl). Defined.

(* ================================================================== *)
(** * Further properties: type strings *)
(* ================================================================== *)

Section ArrayFacts.

Lemma sliceFrom_length_app (s p : string) : JS.sliceFrom (String.length s) (s ++ p) = p.
Proof.
  induction s as [|c r IH]; [apply sliceFrom_0|].
  cbn [String.length append]. now rewrite sliceFrom_cons.
Qed.

Lemma substring_0_length_app (s p : string) : substring 0 (String.length s) (s ++ p) = s.
Proof. induction s as [|c r IH]; cbn; [now destruct p | now rewrite IH]. Qed.

Lemma endsWith_app (s p : string) : JS.endsWith p (s ++ p) = true.
Proof.
  unfold JS.endsWith. rewrite length_app.
  replace (String.length s + String.length p - String.length p) with (String.length s) by lia.
  rewrite sliceFrom_length_app, String.eqb_refl, andb_true_r.
  apply Nat.leb_le. lia.
Qed.

Lemma sliceDropLast_app (s p : string) : JS.sliceDropLast (String.length p) (s ++ p) = s.
Proof.
  unfold JS.sliceDropLast. rewrite length_app.
  replace (String.length s + String.length p - String.length p) with (String.length s) by lia.
  apply substring_0_length_app.
Qed.

End ArrayFacts.

(** X5: an array suffix of a type string becomes an array prefix of the
    Go type, at any depth: the translation of [s[]] is [[]] followed by
    the translation of [s], for every [s] (a scalar, a union, a named
    type or again an array). *)
Theorem translateTypeString_array (s : string) :
  translateTypeString (s ++ "[]") = "[]" ++ translateTypeString s.
Proof.
  rewrite translateTypeString_unfold, endsWith_app.
  pose proof (sliceDropLast_app s "[]") as H. cbn [String.length] in H.
  now rewrite H.
Qed.

(** X6: a type declaration of kind [array] is translated from the first
    type name of its items alone; the items of the items are not
    visited, so an array whose items are arrays again comes out as
    [[]array], behind the qualifier. *)
Theorem translateType_array_of_arrays
        (t it : TypeDeclaration) (rest rest' : list string) :
  type_ t = "array" :: rest ->
  items t = Some it ->
  type_ it = "array" :: rest' ->
  translateType t = Returned ((if required t then "" else "*") ++ "[]array").
Proof.
  intros Ht Hit Hit'. unfold translateType. rewrite Ht, Hit, Hit'.
  now destruct (required t).
Qed.

Lemma translateType_array_of_arrays_witness :
  translateType
    (mkType "matrix" None ["array"] true
            (Some (mkType "items" None ["array"] true
                          (Some (mkType "items" None ["integer"] true None None)) None))
            None)
  = Returned "[]array".
Proof.
  exact (translateType_array_of_arrays
           (mkType "matrix" None ["array"] true
                   (Some (mkType "items" None ["array"] true
                                 (Some (mkType "items" None ["integer"] true None None))
                                 None))
                   None)
           _ [] [] eq_refl eq_refl eq_refl).
Defined.

(* ================================================================== *)
(** * Further properties: the fields of a struct *)
(* ================================================================== *)

Section FlattenFacts.

Variables (file : string) (api : Api) (struct : string).

Lemma withFields_nil (st : State) : withFields file struct [] st = st.
Proof. now destruct st. Qed.

Lemma withFields_app (fs gs : list Field) (st : State) :
  withFields file struct (fs ++ gs) st
  = withFields file struct gs (withFields file struct fs st).
Proof. unfold withFields. cbn [gomodule console func options before after]. now rewrite fold_left_app. Qed.

(** The loop of [gen] over the declared properties. *)
Lemma forEach_properties (props : list TypeDeclaration) :
  forall st,
    forEach props (fun prop =>
      ty <- lift (translateType prop) ;;
      onModule (Struct_field file struct
                  (mkField (translatePropName (name prop) true) ty
                           (Some ("json:" ++ JS.dq ++ name prop ++ JS.dq))))) st
    = appendFields file struct st (mapOutcome propertyField props).
Proof.
  induction props as [|p ps IH]; intros st.
  - cbn [forEach mapOutcome appendFields ret]. now rewrite withFields_nil.
  - cbn [forEach mapOutcome]. unfold bind at 1. unfold bind at 1, lift.
    assert (Hp : propertyField p
                 = obind (translateType p) (fun ty =>
                     Returned (mkField (translatePropName (name p) true) ty
                                       (Some ("json:" ++ JS.dq ++ name p ++ JS.dq)))))
      by reflexivity.
    rewrite Hp. clear Hp.
    destruct (translateType p) as [ty| e |]; cbn [obind]; try reflexivity.
    unfold onModule at 1. rewrite IH.
    destruct (mapOutcome propertyField ps) as [fs| e |]; cbn [obind appendFields];
      reflexivity.
Qed.

(** The loop of [gen] over the supertypes, once [gen] itself is known to
    append the fields computed by [g]. *)
Lemma forEach_supertypes
      (step : TypeDeclaration -> Gen unit) (g : TypeDeclaration -> outcome (list Field)) :
  (forall t st, step t st = appendFields file struct st (g t)) ->
  forall subs st,
    forEach subs (fun sub =>
      match find (fun d => String.eqb (name d) sub) (types api) with
      | Some t => step t
      | None => ret tt
      end) st
    = appendFields file struct st
        (concatOutcome (fun sub =>
           match find (fun d => String.eqb (name d) sub) (types api) with
           | Some t' => g t'
           | None => Returned []
           end) subs).
Proof.
  intros Hstep. induction subs as [|sub rest IH]; intros st.
  - cbn [forEach concatOutcome appendFields ret]. now rewrite withFields_nil.
  - cbn [forEach concatOutcome]. unfold bind at 1.
    destruct (find (fun d => String.eqb (name d) sub) (types api)) as [t|].
    + rewrite Hstep. destruct (g t) as [fs| e |]; cbn [appendFields obind]; try reflexivity.
      rewrite IH.
      match goal with |- context [concatOutcome ?f rest] =>
        destruct (concatOutcome f rest) as [gs| e |] end;
        cbn [appendFields obind]; try reflexivity.
      now rewrite withFields_app.
    + cbn [ret obind]. rewrite IH.
      match goal with |- context [concatOutcome ?f rest] =>
        destruct (concatOutcome f rest) as [gs| e |] end;
        cbn [appendFields obind]; reflexivity.
Qed.

Lemma gen_appends_flattenFields (fuel : nat) :
  forall t st,
    gen fuel file api struct t st = appendFields file struct st (flattenFields fuel api t).
Proof.
  induction fuel as [|fuel IH]; intros t st; [reflexivity|].
  cbn [gen flattenFields]. destruct (properties t) as [props|].
  - unfold bind at 1. rewrite forEach_properties.
    destruct (mapOutcome propertyField props) as [own| e |];
      cbn [appendFields obind]; try reflexivity.
    rewrite (forEach_supertypes _ (flattenFields fuel api) IH).
    match goal with |- context [concatOutcome ?f (type_ t)] =>
      destruct (concatOutcome f (type_ t)) as [inh| e |] end;
      cbn [appendFields obind]; try reflexivity.
    now rewrite withFields_app.
  - cbn [appendFields ret]. now rewrite withFields_nil.
Qed.

End FlattenFacts.

Section StructFrame.

Variables (file sname : string).

(** What obtaining the struct changes: the file's list of structs, by a
    new empty struct at its end, and the registry, by the name; both
    only where the file had no struct of the name. *)
Lemma File_struct_file (m : GoModule) :
  Module_file file (File_struct file sname m)
  = if hasStruct sname (Module_file file m) then Module_file file m
    else mkFile (imports (Module_file file m))
                (structs (Module_file file m) ++ [mkStruct sname []])%list
                (funcs (Module_file file m)).
Proof.
  unfold File_struct. destruct (hasStruct sname (Module_file file m)); [reflexivity|].
  now rewrite Module_file_register, Module_file_withFile.
Qed.

Lemma File_struct_other_file (other : string) (m : GoModule) :
  other <> file -> Module_file other (File_struct file sname m) = Module_file other m.
Proof.
  intros Hne. unfold File_struct.
  destruct (hasStruct sname (Module_file file m)); [reflexivity|].
  now rewrite Module_file_register, Module_file_withFile_other.
Qed.

Lemma File_struct_identifiers (m : GoModule) :
  identifiers (File_struct file sname m)
  = if hasStruct sname (Module_file file m) then identifiers m
    else declare sname (identifiers m).
Proof.
  unfold File_struct. destruct (hasStruct sname (Module_file file m)); [reflexivity|].
  unfold register, declare, withFile. cbn [identifiers].
  now destruct (mem sname (identifiers m)).
Qed.

(** What appending fields changes: the structs of that name in the file,
    nothing else. *)
Lemma fields_file (flds : list Field) :
  forall m,
    let m' := fold_left (fun m fld => Struct_field file sname fld m) flds m in
    imports (Module_file file m') = imports (Module_file file m)
    /\ funcs (Module_file file m') = funcs (Module_file file m)
    /\ identifiers m' = identifiers m
    /\ forall other, other <> file -> Module_file other m' = Module_file other m.
Proof.
  induction flds as [|fld rest IH]; intros m; cbn zeta; cbn [fold_left].
  - now repeat split.
  - destruct (IH (Struct_field file sname fld m)) as (Hi & Hf & Hid & Ho).
    cbn zeta in Hi, Hf, Hid, Ho. rewrite Hi, Hf, Hid.
    split; [unfold Struct_field; now rewrite Module_file_withFile|].
    split; [unfold Struct_field; now rewrite Module_file_withFile|].
    split; [reflexivity|].
    intros other Hne. rewrite (Ho other Hne). unfold Struct_field.
    now apply Module_file_withFile_other.
Qed.

Lemma find_other_app (other : string) (l : list Struct) :
  other <> sname ->
  find (fun s => String.eqb (s_name s) other) (l ++ [mkStruct sname []])
  = find (fun s => String.eqb (s_name s) other) l.
Proof.
  intros Hne. induction l as [|s rest IH]; cbn [app find s_name].
  - assert (E : String.eqb sname other = false) by (apply String.eqb_neq; congruence).
    now rewrite E.
  - destruct (String.eqb (s_name s) other); [reflexivity | exact IH].
Qed.

Lemma findStruct_File_struct_other (other : string) (m : GoModule) :
  other <> sname ->
  findStruct file other (File_struct file sname m) = findStruct file other m.
Proof.
  intros Hne. unfold findStruct. rewrite File_struct_file.
  destruct (hasStruct sname (Module_file file m)); [reflexivity|].
  cbn [structs]. now apply find_other_app.
Qed.

Lemma findStruct_Struct_field_other (other : string) (fld : Field) (m : GoModule) :
  other <> sname ->
  findStruct file other (Struct_field file sname fld m) = findStruct file other m.
Proof.
  intros Hne. unfold findStruct, Struct_field. rewrite Module_file_withFile.
  cbn [structs].
  induction (structs (Module_file file m)) as [|s rest IH]; [reflexivity|].
  cbn [map find]. destruct (String.eqb (s_name s) sname) eqn:E.
  - cbn [s_name]. apply String.eqb_eq in E.
    assert (En : String.eqb (s_name s) other = false)
      by (apply String.eqb_neq; congruence).
    rewrite En. exact IH.
  - destruct (String.eqb (s_name s) other); [reflexivity | exact IH].
Qed.

Lemma findStruct_fields_other (other : string) (flds : list Field) :
  other <> sname ->
  forall m,
    findStruct file other (fold_left (fun m fld => Struct_field file sname fld m) flds m)
    = findStruct file other m.
Proof.
  intros Hne. induction flds as [|fld rest IH]; intros m; cbn [fold_left]; [reflexivity|].
  now rewrite IH, findStruct_Struct_field_other.
Qed.

End StructFrame.

(** X7: flattening a type into a struct leaves the module as obtaining
    the struct of the given name and then appending, one by one, the
    computed fields leaves it: the fields of the type's own properties in
    order, each tagged with the property's name, then, depth first and in
    the order the type lists them, the fields of every supertype the API
    declares.  So the struct of that name (the one already there, or a
    new one) ends with these fields after those it had; every struct of
    another name, the imports and the functions of the file and every
    other file are as before; the registry gains the name where the file
    had no struct of it and is as before otherwise; the console, the
    function under construction and the three collectors are as before.
    The step throws or exhausts its fuel exactly when the computation of
    the fields does. *)
Theorem generateStruct_appends_flattened_fields
        (fuel : nat) (file : string) (api : Api) (sname : string)
        (t : TypeDeclaration) (st : State) :
  match flattenFields fuel api t with
  | Returned fs =>
      exists st',
        generateStruct fuel file api sname t st = Returned (tt, st')
        /\ gomodule st'
           = fold_left (fun m fld => Struct_field file sname fld m) fs
                       (File_struct file sname (gomodule st))
        /\ findStruct file sname (gomodule st')
           = Some (mkStruct
                     (match findStruct file sname (gomodule st) with
                      | Some s => s_name s
                      | None => sname
                      end)
                     (match findStruct file sname (gomodule st) with
                      | Some s => s_fields s
                      | None => []
                      end ++ fs)%list)
        /\ (forall other, other <> sname ->
              findStruct file other (gomodule st') = findStruct file other (gomodule st))
        /\ imports (Module_file file (gomodule st'))
           = imports (Module_file file (gomodule st))
        /\ funcs (Module_file file (gomodule st')) = funcs (Module_file file (gomodule st))
        /\ (forall path, path <> file ->
              Module_file path (gomodule st') = Module_file path (gomodule st))
        /\ identifiers (gomodule st')
           = (if hasStruct sname (Module_file file (gomodule st))
              then identifiers (gomodule st)
              else declare sname (identifiers (gomodule st)))
        /\ console st' = console st /\ func st' = func st
        /\ options st' = options st /\ before st' = before st /\ after st' = after st
  | Thrown e => generateStruct fuel file api sname t st = Thrown e
  | OutOfFuel => generateStruct fuel file api sname t st = OutOfFuel
  end.
Proof.
  assert (H : generateStruct fuel file api sname t st
              = appendFields file sname
                  (mkState (File_struct file sname (gomodule st)) (console st) (func st)
                           (options st) (before st) (after st))
                  (flattenFields fuel api t))
    by (unfold generateStruct, bind, onModule; apply gen_appends_flattenFields).
  destruct (flattenFields fuel api t) as [fs| e |]; cbn [appendFields] in H;
    [|exact H | exact H].
  eexists. split; [exact H|]. unfold withFields.
  cbn [gomodule console func options before after].
  destruct (fields_file file sname fs (File_struct file sname (gomodule st)))
    as (Hi & Hf & Hid & Ho).
  cbn zeta in Hi, Hf, Hid, Ho.
  split; [reflexivity|].
  split.
  { rewrite findStruct_fields, findStruct_File_struct.
    now destruct (findStruct file sname (gomodule st)) as [[n old]|]. }
  split.
  { intros other Hne.
    now rewrite findStruct_fields_other, findStruct_File_struct_other. }
  split.
  { rewrite Hi, File_struct_file.
    now destruct (hasStruct sname (Module_file file (gomodule st))). }
  split.
  { rewrite Hf, File_struct_file.
    now destruct (hasStruct sname (Module_file file (gomodule st))). }
  split.
  { intros path Hne. rewrite (Ho path Hne). now apply File_struct_other_file. }
  split.
  { rewrite Hid. apply File_struct_identifiers. }
  now repeat split.
Qed.

(** The struct of a type with an optional integer that extends a type
    with a required string. *)
Example generateStruct_user :
  exists st',
    generateStruct 3 "models.go" modelApi "User" tUser (initialState emptyModule)
    = Returned (tt, st')
    /\ findStruct "models.go" "User" (gomodule st')
       = Some (mkStruct "User"
                 [mkField "Count" "*int" (Some ("json:" ++ JS.dq ++ "count" ++ JS.dq));
                  mkField "ID" "string" (Some ("json:" ++ JS.dq ++ "id" ++ JS.dq))]).
Proof. eexists. split; [vm_compute; reflexivity | now vm_compute]. Qed.

(** X8: on a model whose supertype chain is well founded, measured by a
    rank that every step along the chain lowers, the flattening of a
    type stops as soon as the fuel exceeds the rank of the type: it
    returns or throws, the fuel is not exhausted. *)
Theorem generateStruct_stops_when_ranked
        (file : string) (api : Api) (rank : TypeDeclaration -> nat) :
  (forall t sub t',
     In sub (type_ t) ->
     find (fun d => String.eqb (name d) sub) (types api) = Some t' ->
     rank t' < rank t) ->
  forall fuel sname t st,
    rank t < fuel -> generateStruct fuel file api sname t st <> OutOfFuel.
Proof.
  intros Hrank fuel sname t st Hlt. unfold generateStruct, bind, onModule.
  now apply (gen_stops_when_ranked file api sname rank Hrank).
Qed.

Lemma generateStruct_stops_when_ranked_witness :
  generateStruct 2 "models.go" modelApi "User" tUser (initialState emptyModule)
  <> OutOfFuel.
Proof.
  apply (generateStruct_stops_when_ranked "models.go" modelApi modelRank);
    [|unfold modelRank; cbn; lia].
  intros t sub t' Hin Hfind. cbn [modelApi types find name tUser tBase] in Hfind.
  assert (Hmem : mem sub (type_ t) = true).
  { unfold mem. apply existsb_exists. exists sub. split; [exact Hin|].
    apply String.eqb_refl. }
  destruct (String.eqb "User" sub) eqn:EU.
  - injection Hfind as <-. apply String.eqb_eq in EU. subst sub.
    unfold modelRank at 2. rewrite Hmem. unfold modelRank. cbn. lia.
  - destruct (String.eqb "Base" sub) eqn:EB; [|discriminate].
    injection Hfind as <-. apply String.eqb_eq in EB. subst sub.
    unfold modelRank at 2. rewrite Hmem.
    destruct (mem "User" (type_ t)); unfold modelRank; cbn; lia.
Defined.

(* ================================================================== *)
(** * Further properties: the steps of a request *)
(* ================================================================== *)

Section ResolvedLists.

Lemma fold_left_app_flat_map {A B : Type} (f : B -> list A) (l : list B) :
  forall init, fold_left (fun acc x => (acc ++ f x)%list) l init = (init ++ flat_map f l)%list.
Proof.
  induction l as [|x rest IH]; intros init; cbn [fold_left flat_map].
  - now rewrite app_nil_r.
  - now rewrite IH, app_assoc.
Qed.

End ResolvedLists.

(** X10: the query parameters of a method are its own, in order,
    followed by those of the applied traits in the order of
    application; likewise the body that is generated for is the method's
    own first body, and a trait's only when the method has none. *)
Theorem own_before_traits (m : Method) :
  allQueryParameters m
  = (m_queryParameters m ++ flat_map t_queryParameters (is_ m))%list
  /\ firstBody m = match m_body m with
                   | b :: _ => Some b
                   | [] => hd_error (flat_map t_body (is_ m))
                   end.
Proof.
  unfold allQueryParameters, firstBody. rewrite !fold_left_app_flat_map.
  split; [reflexivity|]. now destruct (m_body m).
Qed.

Section FunctionFacts.

Lemma findFunc_withFile (path fname : string) (k : File -> File) (m : GoModule) :
  (forall f, funcs (k f) = funcs f) ->
  findFunc path fname (withFile path k m) = findFunc path fname m.
Proof. intros Hk. unfold findFunc. now rewrite Module_file_withFile, Hk. Qed.

Lemma findFunc_File_import (path fname imp : string) (m : GoModule) :
  findFunc path fname (File_import path imp m) = findFunc path fname m.
Proof.
  unfold File_import. apply findFunc_withFile. intros f.
  now destruct (mem imp (imports f)).
Qed.

Lemma findFunc_File_struct (path fname sname : string) (m : GoModule) :
  findFunc path fname (File_struct path sname m) = findFunc path fname m.
Proof.
  unfold File_struct. destruct (hasStruct sname (Module_file path m)); [reflexivity|].
  unfold findFunc at 1. rewrite Module_file_register.
  change (findFunc path fname (withFile path
            (fun f => mkFile (imports f) (structs f ++ [mkStruct sname []]) (funcs f)) m)
          = findFunc path fname m).
  now apply findFunc_withFile.
Qed.

Lemma findFunc_Struct_field (path fname sname : string) (fld : Field) (m : GoModule) :
  findFunc path fname (Struct_field path sname fld m) = findFunc path fname m.
Proof. unfold Struct_field. now apply findFunc_withFile. Qed.

Lemma findFunc_fields (path fname sname : string) (flds : list Field) :
  forall m,
    findFunc path fname (fold_left (fun m fld => Struct_field path sname fld m) flds m)
    = findFunc path fname m.
Proof.
  induction flds as [|fld rest IH]; intros m; cbn [fold_left]; [reflexivity|].
  now rewrite IH, findFunc_Struct_field.
Qed.

Lemma findFunc_addArgs (path fname : string) (l : list Arg) (m : GoModule) (fn : Func) :
  findFunc path fname m = Some fn ->
  findFunc path fname (Func_addArgs path fname l m)
  = Some (mkFunc (fn_name fn) (fn_receiver fn) (fn_args fn ++ l)%list
                 (fn_returns fn) (fn_body fn)).
Proof.
  intros H. unfold Func_addArgs. rewrite findFunc_withFunc by reflexivity.
  now rewrite H.
Qed.

(** A change of the function named [fname] leaves the others alone. *)
Lemma findFunc_withFunc_other (path fname other : string) (h : Func -> Func) (m : GoModule) :
  (forall fn, fn_name (h fn) = fn_name fn) ->
  other <> fname ->
  findFunc path other (withFunc path fname h m) = findFunc path other m.
Proof.
  intros Hh Hne. unfold findFunc, withFunc. rewrite Module_file_withFile. cbn [funcs].
  induction (funcs (Module_file path m)) as [|fn rest IH]; [reflexivity|].
  cbn [map find]. destruct (String.eqb (fn_name fn) fname) eqn:E.
  - rewrite Hh. apply String.eqb_eq in E.
    assert (En : String.eqb (fn_name fn) other = false)
      by (apply String.eqb_neq; congruence).
    rewrite En. exact IH.
  - destruct (String.eqb (fn_name fn) other); [reflexivity | exact IH].
Qed.

Lemma findFunc_File_func_other (path fname other : string) (m : GoModule) :
  other <> fname ->
  findFunc path other (File_func path fname m) = findFunc path other m.
Proof.
  intros Hne. unfold File_func. destruct (hasFunc fname (Module_file path m)); [reflexivity|].
  unfold findFunc. rewrite Module_file_register, Module_file_withFile. cbn [funcs].
  induction (funcs (Module_file path m)) as [|fn rest IH]; cbn [app find fn_name].
  - assert (En : String.eqb fname other = false)
      by (apply String.eqb_neq; congruence).
    now rewrite En.
  - destruct (String.eqb (fn_name fn) other); [reflexivity | exact IH].
Qed.

End FunctionFacts.

(** X11: with at least one query parameter, each naming a type, the
    query step obtains the struct named after the function with
    [Params] appended (the one already declared under that name, or a
    new one) and appends to it one field per parameter, in order and
    without tag; it gives the function one more argument, [query], of
    that struct type; and it writes the serialization: the opening line,
    one [v.Set] line per parameter, the closing line. *)
Theorem generateQueryParams_struct_and_lines
        (file : string) (m : Method) (st : State) (fn : Func) :
  findFunc file (func st) (gomodule st) = Some fn ->
  allQueryParameters m <> [] ->
  (forall p, In p (allQueryParameters m) -> type_ p <> []) ->
  exists st',
    generateQueryParams file m st = Returned (tt, st')
    /\ findStruct file (func st ++ "Params") (gomodule st')
       = Some (mkStruct
                 (match findStruct file (func st ++ "Params") (gomodule st) with
                  | Some s => s_name s
                  | None => func st ++ "Params"
                  end)
                 (match findStruct file (func st ++ "Params") (gomodule st) with
                  | Some s => s_fields s
                  | None => []
                  end ++ map queryField (allQueryParameters m))%list)
    /\ findFunc file (func st) (gomodule st')
       = Some (mkFunc (fn_name fn) (fn_receiver fn)
                      (fn_args fn ++ [mkArg "query" (func st ++ "Params")])%list
                      (fn_returns fn) (fn_body fn))
    /\ before st'
       = (before st ++ ("v := url.Values{}" ++ JS.nl)%string
                    :: map queryLine (allQueryParameters m)
                    ++ [("q := " ++ JS.dq ++ "?" ++ JS.dq ++ " + v.Encode()" ++ JS.nl)%string])%list
    /\ options st' = options st /\ after st' = after st.
Proof.
  intros Hfn Hne Hty. unfold generateQueryParams.
  destruct (allQueryParameters m) as [|q qs] eqn:E; [now elim Hne|].
  unfold bind at 1, onModule at 1. unfold bind at 1, getState.
  cbn [func gomodule console options before after].
  unfold bind at 1, onModule at 1. unfold bind at 1, onModule at 1.
  unfold bind at 1, before_write at 1.
  unfold bind at 1.
  rewrite forEach_queryParams by exact Hty.
  unfold before_write, WriteCollector_write.
  cbn [func gomodule console options before after].
  eexists. split; [reflexivity|]. cbn [gomodule before options after].
  assert (Himp : findStruct file (func st ++ "Params")
                            (File_import file "net/url" (gomodule st))
                 = findStruct file (func st ++ "Params") (gomodule st)).
  { unfold findStruct, File_import. rewrite Module_file_withFile.
    now destruct (mem "net/url" (imports (Module_file file (gomodule st)))). }
  split; [|split; [|split; [|now split]]].
  - rewrite findStruct_fields. unfold Func_arg, Func_addArgs.
    rewrite findStruct_withFunc, findStruct_File_struct, Himp.
    now destruct (findStruct file (func st ++ "Params") (gomodule st)) as [[n fs]|].
  - rewrite findFunc_fields. unfold Func_arg.
    apply findFunc_addArgs. now rewrite findFunc_File_struct, findFunc_File_import.
  - rewrite <- !app_assoc. reflexivity.
Qed.

Lemma generateQueryParams_struct_and_lines_witness :
  exists st',
    generateQueryParams "endpoints.go" mSearch (stateFor "endpoints.go" "GetUser")
    = Returned (tt, st')
    /\ findStruct "endpoints.go" "GetUserParams" (gomodule st')
       = Some (mkStruct "GetUserParams"
                 [mkField "Q" "string" None; mkField "Limit" "int" None;
                  mkField "Page" "int" None])
    /\ length (before st') = 5.
Proof.
  destruct (generateQueryParams_struct_and_lines
              "endpoints.go" mSearch (stateFor "endpoints.go" "GetUser")
              (mkFunc "GetUser" None [] [] []) eq_refl)
    as (st' & Hrun & Hstruct & _ & Hbefore & _).
  - discriminate.
  - intros p [<-|[<-|[<-|[]]]]; discriminate.
  - exists st'. split; [exact Hrun|]. split.
    + exact (eq_trans Hstruct eq_refl).
    + exact (eq_trans (f_equal (@length string) Hbefore) eq_refl).
Defined.

Section QueryErrors.

Lemma forEach_queryParams_untyped (file type : string) (params : list TypeDeclaration) :
  existsb (fun p => match type_ p with [] => true | _ => false end) params = true ->
  forall st,
    forEach params (fun prop =>
      let propName := translatePropName (name prop) true in
      primary <- lift (firstOrThrow (type_ prop)) ;;
      onModule (Struct_field file type
                  (mkField propName (translateTypeString primary) None)) ;;
      before_write ("v.Set(" ++ JS.dq ++ name prop ++ JS.dq ++ ", query." ++ propName
                    ++ ")" ++ JS.nl)) st
    = Thrown TypeError.
Proof.
  induction params as [|p ps IH]; intros H st; [discriminate|].
  cbn [existsb] in H. cbn [forEach]. unfold bind at 1.
  destruct (type_ p) as [|primary rest] eqn:Ep.
  - unfold bind, lift, firstOrThrow, obind. reflexivity.
  - cbn [orb] in H. unfold bind at 1, lift, firstOrThrow, obind.
    unfold bind at 1, onModule, before_write. now apply IH.
Qed.

End QueryErrors.

(** X12: a query parameter that declares no type, the method's own or a
    trait's, aborts the query step with the runtime's type error, at
    whatever place of the list it stands. *)
Theorem generateQueryParams_untyped_parameter_throws
        (file : string) (m : Method) (st : State) (p : TypeDeclaration) :
  In p (allQueryParameters m) ->
  type_ p = [] ->
  generateQueryParams file m st = Thrown TypeError.
Proof.
  intros Hin Hp. unfold generateQueryParams.
  destruct (allQueryParameters m) as [|q qs] eqn:E; [destruct Hin|].
  unfold bind at 1, onModule at 1. unfold bind at 1, getState.
  unfold bind at 1, onModule at 1. unfold bind at 1, onModule at 1.
  unfold bind at 1, before_write at 1. unfold bind at 1.
  rewrite forEach_queryParams_untyped; [reflexivity|].
  apply existsb_exists. exists p. split; [exact Hin | now rewrite Hp].
Qed.

Lemma generateQueryParams_untyped_parameter_throws_witness :
  generateQueryParams "endpoints.go" mUntyped (stateFor "endpoints.go" "GetUser")
  = Thrown TypeError.
Proof.
  apply (generateQueryParams_untyped_parameter_throws _ _ _ qUntyped);
    [right; left; reflexivity | reflexivity].
Defined.

(** X13: when the first response below 300 declares a body whose type
    translates, the function under construction receives the three
    return types [*http.Response], the translated type and [error], in
    this order, and the text after the request is the decoding text for
    that type; when the type does not translate, the step throws. *)
Theorem generateFuncReturns_decoded_success
        (file : string) (m : Method) (res : Response) (b : TypeDeclaration)
        (bs : list TypeDeclaration) (st : State) (fn : Func) :
  findFunc file (func st) (gomodule st) = Some fn ->
  getSuccessfulResponse m = Some res ->
  r_body res = b :: bs ->
  match translateType b with
  | Returned ty =>
      exists st',
        generateFuncReturns file m st = Returned (tt, st')
        /\ findFunc file (func st) (gomodule st')
           = Some (mkFunc (fn_name fn) (fn_receiver fn) (fn_args fn)
                          (fn_returns fn ++ ["*http.Response"; ty; "error"])%list
                          (fn_body fn))
        /\ after st' = (after st ++ [decodeResponse (Some ty)])%list
        /\ before st' = before st /\ options st' = options st
  | Thrown e => generateFuncReturns file m st = Thrown e
  | OutOfFuel => False
  end.
Proof.
  intros Hfn Hres Hbody. unfold generateFuncReturns. rewrite Hres, Hbody.
  pose proof (translateType_never_OutOfFuel b) as Hn.
  destruct (translateType b) as [ty| e |] eqn:Ety; [| |now apply Hn].
  - unfold bind at 1, getState. unfold bind at 1, onModule at 1.
    unfold bind at 1. unfold bind at 1, lift. cbn [obind].
    unfold bind at 1, onModule at 1. unfold ret.
    unfold bind at 1, onModule at 1. unfold after_write, WriteCollector_write.
    eexists. split; [reflexivity|]. cbn [gomodule after before options func].
    split; [|now repeat split].
    rewrite (findFunc_returns _ _ "error" _ _
               (findFunc_returns _ _ ty _ _
                  (findFunc_returns _ _ "*http.Response" _ _ Hfn))).
    cbn [fn_name fn_receiver fn_args fn_returns fn_body].
    now rewrite <- !app_assoc.
  - unfold bind at 1, getState. unfold bind at 1, onModule at 1.
    unfold bind at 1. unfold bind at 1, lift. reflexivity.
Qed.

Lemma generateFuncReturns_decoded_success_witness :
  exists st',
    generateFuncReturns "endpoints.go" mList (stateFor "endpoints.go" "GetUser")
    = Returned (tt, st')
    /\ returnsOf "endpoints.go" "GetUser" (gomodule st')
       = ["*http.Response"; "User"; "error"]
    /\ after st' = [decodeResponse (Some "User")].
Proof.
  pose proof (generateFuncReturns_decoded_success
                "endpoints.go" mList (mkResponse "200" [jsonUser]) jsonUser []
                (stateFor "endpoints.go" "GetUser")
                (mkFunc "GetUser" None [] [] []) eq_refl eq_refl eq_refl) as H.
  change (translateType jsonUser) with (Returned (A:=string) "User") in H.
  destruct H as (st' & Hrun & Hfn & Hafter & _).
  exists st'. split; [exact Hrun|]. split; [|exact Hafter].
  unfold returnsOf. unfold stateFor in Hfn. cbn [func] in Hfn. rewrite Hfn. reflexivity.
Defined.

(* ================================================================== *)
(** * Further properties: path arguments *)
(* ================================================================== *)

Lemma translateType_throws (t : TypeDeclaration) :
  elementName t = None -> translateType t = Thrown TypeError.
Proof.
  unfold elementName, translateType.
  destruct (type_ t) as [|primary rest]; [reflexivity|].
  destruct (String.eqb primary "array"); [|discriminate].
  destruct (items t) as [it|]; [|reflexivity].
  destruct (type_ it); [reflexivity | discriminate].
Qed.

(** X14: the path arguments of a resource are its URI parameters after
    the first, one argument each and in their order, named by the
    unexported resolved name and typed by the translated type; the step
    throws exactly when one of these parameters names no type. *)
Theorem getPathFmtArgs_outcome (resource : Resource) :
  match getPathFmtArgs resource with
  | Returned args =>
      map arg_name args
      = map (fun p => translatePropName (name p) false)
            (skipn 1 (absoluteUriParameters resource))
      /\ map (fun a => Returned (arg_type a)) args
         = map translateType (skipn 1 (absoluteUriParameters resource))
      /\ forallb namesType (skipn 1 (absoluteUriParameters resource)) = true
  | Thrown _ => forallb namesType (skipn 1 (absoluteUriParameters resource)) = false
  | OutOfFuel => False
  end.
Proof.
  unfold getPathFmtArgs.
  induction (skipn 1 (absoluteUriParameters resource)) as [|p ps IH].
  - now cbn.
  - cbn [mapOutcome map forallb]. unfold namesType at 1 3.
    destruct (elementName p) as [n|] eqn:En.
    + destruct (translateType_returns p n En) as (ty & Hty). rewrite Hty. cbn [obind].
      match goal with |- context [mapOutcome ?f ps] =>
        destruct (mapOutcome f ps) as [args| e |] end; cbn [obind andb].
      * destruct IH as (Hn & Ht & Hall). cbn [map arg_name arg_type].
        now rewrite Hn, Ht.
      * exact IH.
      * exact IH.
    + rewrite (translateType_throws p En). reflexivity.
Qed.

Lemma mapOutcome_translate_throws (ps : list TypeDeclaration) :
  forallb namesType ps = false ->
  mapOutcome
    (fun param =>
       obind (translateType param) (fun ty =>
         Returned (mkArg (translatePropName (name param) false) ty))) ps
  = Thrown TypeError.
Proof.
  induction ps as [|p rest IH]; intros H; [discriminate|].
  cbn [forallb] in H. cbn [mapOutcome]. unfold namesType in H at 1.
  destruct (elementName p) as [n|] eqn:En.
  - destruct (translateType_returns p n En) as (ty & Hty). rewrite Hty. cbn [obind].
    now rewrite IH.
  - now rewrite (translateType_throws p En).
Qed.

(** X15: when a URI parameter after the first names no type, generating
    any operation of the resource throws the runtime's type error: no
    text is written for it. *)
Theorem method_throws_on_untyped_path_parameter
        (Call_toString : Call -> string) (fuel : nat) (file : string) (api : Api)
        (resource : Resource) (m : Method) (st : State) :
  forallb namesType (skipn 1 (absoluteUriParameters resource)) = false ->
  method Call_toString fuel file api resource m st = Thrown TypeError.
Proof.
  intros H.
  assert (Hargs : getPathFmtArgs resource = Thrown TypeError)
    by (unfold getPathFmtArgs; now apply mapOutcome_translate_throws).
  unfold method.
  unfold bind at 1, onModule at 1. unfold bind at 1, onModule at 1.
  unfold bind at 1, setFunc. unfold bind at 1, onModule at 1.
  unfold bind at 1, lift. now rewrite Hargs.
Qed.

Lemma method_throws_on_untyped_path_parameter_witness :
  method printCall 0 "endpoints.go" emptyApi rUntyped mList (initialState emptyModule)
  = Thrown TypeError.
Proof.
  exact (method_throws_on_untyped_path_parameter
           printCall 0 "endpoints.go" emptyApi rUntyped mList (initialState emptyModule)
           eq_refl).
Defined.

(* ================================================================== *)
(** * Further properties: the write collector *)
(* ================================================================== *)

Section CollectorFacts.

Lemma append_assoc (a b c : string) : (a ++ b) ++ c = a ++ b ++ c.
Proof. induction a as [|x r IH]; cbn; [reflexivity | now rewrite IH]. Qed.

Lemma append_empty_r (a : string) : a ++ "" = a.
Proof. induction a as [|x r IH]; cbn; [reflexivity | now rewrite IH]. Qed.

Lemma join_empty_app (l1 l2 : list string) :
  JS.join "" (l1 ++ l2) = JS.join "" l1 ++ JS.join "" l2.
Proof.
  unfold JS.join. induction l1 as [|x rest IH]; [reflexivity|].
  cbn [app]. destruct rest as [|y rest'].
  - cbn [app String.concat]. destruct l2 as [|z l2']; cbn [String.concat append].
    + now rewrite append_empty_r.
    + reflexivity.
  - change (x ++ "" ++ String.concat "" ((y :: rest') ++ l2)
            = (x ++ "" ++ String.concat "" (y :: rest')) ++ String.concat "" l2).
    rewrite IH. cbn [append]. now rewrite append_assoc.
Qed.

End CollectorFacts.

(** X16: a write collector gives back what was written to it, in the
    order of the writes and with nothing in between: after any sequence
    of writes its text is the text it had followed by the written pieces
    concatenated. *)
Theorem WriteCollector_toString_writes (w : WriteCollector) (pieces : list string) :
  WriteCollector_toString (fold_left (fun w d => WriteCollector_write d w) pieces w)
  = WriteCollector_toString w ++ JS.join "" pieces.
Proof.
  revert w. induction pieces as [|d rest IH]; intros w; cbn [fold_left].
  - cbn [JS.join String.concat]. unfold JS.join. cbn [String.concat].
    now rewrite append_empty_r.
  - rewrite IH. unfold WriteCollector_toString, WriteCollector_write.
    rewrite join_empty_app, append_assoc. f_equal.
    change (d :: rest) with ([d] ++ rest)%list. now rewrite join_empty_app.
Qed.

(* ================================================================== *)
(** * Further properties: the inline generator *)
(* ================================================================== *)

Section InlineFacts.

Lemma Inline_pathParams_from (params : list TypeDeclaration) :
  forall (fmt0 : string) (names : list string) (args : list Arg),
    map arg_name args = names ->
    match
      fold_left
        (fun acc param =>
           obind acc (fun '(fmtParams, methodArgs) =>
             let argName := translatePropName (name param) false in
             let fmt0 :=
               JS.replaceFirst ("{" ++ name param ++ "}")
                 (match type_ param with
                  | primary :: _ => if String.eqb primary "number" then "%d" else "%s"
                  | [] => "%s"
                  end)
                 (hd "" fmtParams) in
             obind (Inline.translateType param) (fun ty =>
               Returned ((fmt0 :: tl fmtParams) ++ [argName],
                         methodArgs ++ [mkArg argName ty])%list)))
        params (Returned (fmt0 :: names, args))
    with
    | Returned (fmtParams, methodArgs) =>
        tl fmtParams = map arg_name methodArgs
        /\ fmtParams <> []
        /\ map arg_name methodArgs
           = (names ++ map (fun p => translatePropName (name p) false) params)%list
    | Thrown _ => True
    | OutOfFuel => True
    end.
Proof.
  induction params as [|p ps IH]; intros fmt0 names args Hargs; cbn [fold_left].
  - cbn [tl map]. rewrite app_nil_r. now repeat split.
  - cbn [obind hd tl].
    destruct (Inline.translateType p) as [ty| e |]; cbn [obind].
    + match goal with
      | |- context [Returned ((?f :: names) ++ [?a], (args ++ [?x]))%list] =>
          specialize (IH f (names ++ [a])%list (args ++ [x])%list)
      end.
      cbn [app] in IH |- *.
      match type of IH with ?P -> _ => assert (HP : P) end.
      { rewrite map_app, Hargs. reflexivity. }
      specialize (IH HP).
      match goal with |- match ?o with _ => _ end =>
        destruct o as [[fmtParams methodArgs]| e |] end; try exact I.
      destruct IH as (H1 & H2 & H3). repeat split; try assumption.
      rewrite H3, <- app_assoc. reflexivity.
    + match goal with
      | |- match fold_left ?F ps (Thrown ?x) with _ => _ end =>
          assert (Hf : fold_left F ps (Thrown x) = Thrown x)
            by (clear; induction ps as [|q qs IHq]; [reflexivity | exact IHq])
      end.
      now rewrite Hf.
    + match goal with
      | |- match fold_left ?F ps OutOfFuel with _ => _ end =>
          assert (Hf : fold_left F ps OutOfFuel = OutOfFuel)
            by (clear; induction ps as [|q qs IHq]; [reflexivity | exact IHq])
      end.
      now rewrite Hf.
Qed.

End InlineFacts.

(** X17: in the inline generator the arguments of the format call and
    the arguments of the generated functions stay in step: when the
    parameters of a resource translate, the format call gets the format
    string followed by exactly the names of the function arguments, and
    these are the resolved names of the URI parameters after the first,
    in order. *)
Theorem Inline_pathParams_in_step
        (resource : Resource) (fmtParams : list string) (methodArgs : list Arg) :
  Inline.pathParams resource = Returned (fmtParams, methodArgs) ->
  fmtParams <> []
  /\ tl fmtParams = map arg_name methodArgs
  /\ map arg_name methodArgs
     = map (fun p => translatePropName (name p) false)
           (skipn 1 (absoluteUriParameters resource)).
Proof.
  intros H.
  assert (Hfrom :
            match Inline.pathParams resource with
            | Returned (fmtParams, methodArgs) =>
                tl fmtParams = map arg_name methodArgs
                /\ fmtParams <> []
                /\ map arg_name methodArgs
                   = ([] ++ map (fun p => translatePropName (name p) false)
                                (skipn 1 (absoluteUriParameters resource)))%list
            | Thrown _ => True
            | OutOfFuel => True
            end)
    by exact (Inline_pathParams_from
                (skipn 1 (absoluteUriParameters resource))
                (JS.dq ++ JS.replaceFirst "{version}" "1" (absoluteUri resource) ++ JS.dq)
                [] [] eq_refl).
  rewrite H in Hfrom. destruct Hfrom as (H1 & H2 & H3). now repeat split.
Qed.

Lemma Inline_pathParams_in_step_witness :
  exists fmtParams methodArgs,
    Inline.pathParams rUser = Returned (fmtParams, methodArgs)
    /\ tl fmtParams = map arg_name methodArgs
    /\ map arg_name methodArgs = ["id"].
Proof.
  eexists. eexists. split; [reflexivity|].
  destruct (Inline_pathParams_in_step rUser _ _ eq_refl) as (_ & H1 & H2).
  split; [exact H1 | exact H2].
Defined.

(* ================================================================== *)
(** * Further properties: what an operation writes to *)
(* ================================================================== *)

Section FrameFacts.

Variables (file f : string).

Lemma othersKept_refl (st : State) : othersKept file f st st.
Proof. intros H. now split. Qed.

Lemma othersKept_trans (st1 st2 st3 : State) :
  othersKept file f st1 st2 -> othersKept file f st2 st3 -> othersKept file f st1 st3.
Proof.
  intros H12 H23 H1. destruct (H12 H1) as (H2 & K12). destruct (H23 H2) as (H3 & K23).
  split; [exact H3|]. intros g Hg. now rewrite K23, K12.
Qed.

Lemma keeps_ret {A : Type} (a : A) : keeps file f (ret a).
Proof. intros st a' st' [= _ <-]. apply othersKept_refl. Qed.

Lemma keeps_lift {A : Type} (x : outcome A) : keeps file f (lift x).
Proof.
  intros st a st' H. unfold lift in H. destruct x; cbn [obind] in H; try discriminate.
  injection H as _ <-. apply othersKept_refl.
Qed.

Lemma keeps_bind {A B : Type} (c : Gen A) (k : A -> Gen B) :
  keeps file f c -> (forall a, keeps file f (k a)) -> keeps file f (bind c k).
Proof.
  intros Hc Hk st b st' H. apply bind_returned in H as (a & st1 & H1 & H2).
  exact (othersKept_trans _ _ _ (Hc _ _ _ H1) (Hk a _ _ _ H2)).
Qed.

Lemma keeps_getState_bind {B : Type} (k : State -> Gen B) :
  (forall s0, func s0 = f -> keeps file f (k s0)) -> keeps file f (bind getState k).
Proof.
  intros Hk st b st' H Hf. unfold bind, getState in H. exact (Hk st Hf _ _ _ H Hf).
Qed.

Lemma keeps_forEach {A : Type} (l : list A) (body : A -> Gen unit) :
  (forall x, keeps file f (body x)) -> keeps file f (forEach l body).
Proof.
  intros Hb. induction l as [|x rest IH]; cbn [forEach]; [apply keeps_ret|].
  apply keeps_bind; [apply Hb | intros _; exact IH].
Qed.

Lemma keeps_onModule (g : GoModule -> GoModule) :
  (forall m h, h <> f -> findFunc file h (g m) = findFunc file h m) ->
  keeps file f (onModule g).
Proof.
  intros Hg st a st' [= _ <-] Hf. cbn [func gomodule]. split; [exact Hf|].
  intros h Hh. now apply Hg.
Qed.

Lemma keeps_collectors :
  (forall d, keeps file f (before_write d))
  /\ (forall d, keeps file f (options_write d))
  /\ (forall d, keeps file f (after_write d))
  /\ (forall msg obj, keeps file f (console_error msg obj)).
Proof.
  split; [|split; [|split]]; intros; intros st a st' [= _ <-] Hf; cbn [func gomodule];
    (split; [exact Hf | reflexivity]).
Qed.

Lemma keeps_import (imp : string) : keeps file f (onModule (File_import file imp)).
Proof. apply keeps_onModule. intros m h _. apply findFunc_File_import. Qed.

Lemma keeps_struct (sname : string) : keeps file f (onModule (File_struct file sname)).
Proof. apply keeps_onModule. intros m h _. apply findFunc_File_struct. Qed.

Lemma keeps_field (sname : string) (fld : Field) :
  keeps file f (onModule (Struct_field file sname fld)).
Proof. apply keeps_onModule. intros m h _. apply findFunc_Struct_field. Qed.

Lemma keeps_withFunc (h : Func -> Func) :
  (forall fn, fn_name (h fn) = fn_name fn) -> keeps file f (onModule (withFunc file f h)).
Proof.
  intros Hh. apply keeps_onModule. intros m g Hg. now apply findFunc_withFunc_other.
Qed.

Lemma keeps_gen (api : Api) (sname : string) (fuel : nat) :
  forall t, keeps file f (gen fuel file api sname t).
Proof.
  induction fuel as [|fuel IH]; intros t; cbn [gen].
  - intros st a st' H. discriminate.
  - destruct (properties t) as [props|]; [|apply keeps_ret].
    apply keeps_bind.
    + apply keeps_forEach. intros prop. apply keeps_bind; [apply keeps_lift|].
      intros ty. apply keeps_field.
    + intros _. apply keeps_forEach. intros sub.
      destruct (find _ (types api)); [apply IH | apply keeps_ret].
Qed.

Lemma keeps_generateStruct (api : Api) (sname : string) (fuel : nat) (t : TypeDeclaration) :
  keeps file f (generateStruct fuel file api sname t).
Proof.
  unfold generateStruct. apply keeps_bind; [apply keeps_struct|].
  intros _. apply keeps_gen.
Qed.

Lemma keeps_generateQueryParams (m : Method) : keeps file f (generateQueryParams file m).
Proof.
  destruct keeps_collectors as (Hb & _ & _ & _).
  unfold generateQueryParams. destruct (allQueryParameters m) as [|q qs]; [apply Hb|].
  apply keeps_bind; [apply keeps_import|]. intros _.
  apply keeps_getState_bind. intros s0 Hs0. rewrite Hs0.
  apply keeps_bind; [apply keeps_struct|]. intros _.
  apply keeps_bind; [now apply keeps_withFunc|]. intros _.
  apply keeps_bind; [apply Hb|]. intros _.
  apply keeps_bind; [|intros _; apply Hb].
  apply keeps_forEach. intros prop.
  apply keeps_bind; [apply keeps_lift|]. intros primary.
  apply keeps_bind; [apply keeps_field|]. intros _. apply Hb.
Qed.

Lemma keeps_generateBodyParams (fuel : nat) (api : Api) (m : Method) :
  keeps file f (generateBodyParams fuel file api m).
Proof.
  destruct keeps_collectors as (Hb & Ho & _ & Hc).
  unfold generateBodyParams. destruct (firstBody m) as [body|]; [|apply keeps_ret].
  destruct (displayName body) as [kind|]; [|apply Hc].
  destruct (String.eqb kind "application/json").
  - apply keeps_bind; [apply keeps_lift|]. intros primary.
    apply keeps_getState_bind. intros s0 Hs0. rewrite Hs0.
    apply keeps_bind.
    + destruct (Module_getIdentifier _ _); [apply keeps_ret|].
      apply keeps_bind; [apply keeps_generateStruct|]. intros _. apply keeps_ret.
    + intros ty. apply keeps_bind; [now apply keeps_withFunc|]. intros _.
      apply keeps_bind; [apply keeps_import|]. intros _.
      apply keeps_bind; [apply keeps_import|]. intros _.
      apply keeps_bind; [apply Hb|]. intros _. apply Ho.
  - destruct (String.eqb kind "multipart/form-data"); [apply keeps_ret | apply Hc].
Qed.

Lemma keeps_generateFuncReturns (m : Method) : keeps file f (generateFuncReturns file m).
Proof.
  destruct keeps_collectors as (_ & _ & Ha & _).
  unfold generateFuncReturns.
  apply keeps_getState_bind. intros s0 Hs0. rewrite Hs0.
  apply keeps_bind; [now apply keeps_withFunc|]. intros _.
  apply keeps_bind.
  - destruct (getSuccessfulResponse m) as [res|]; [|apply keeps_ret].
    destruct (r_body res) as [|b bs]; [apply keeps_ret|].
    apply keeps_bind; [apply keeps_lift|]. intros ty.
    apply keeps_bind; [now apply keeps_withFunc|]. intros _. apply keeps_ret.
  - intros resType. apply keeps_bind; [now apply keeps_withFunc|]. intros _.
    destruct (getSuccessfulResponse m); apply Ha.
Qed.

Lemma keeps_getPathFmtCall (Call_toString : Call -> string) (resource : Resource) :
  keeps file f (getPathFmtCall Call_toString file resource).
Proof.
  unfold getPathFmtCall. apply keeps_bind; [apply keeps_lift|]. intros args.
  destruct args as [|a l]; [apply keeps_ret|].
  apply keeps_bind; [apply keeps_import|]. intros _. apply keeps_ret.
Qed.

End FrameFacts.

(** X18: generating an operation writes to one function only, the one
    named by [inferMethodName]: whenever the generation returns, every
    other function of the file is as it was before, whatever the
    operation's parameters, body and responses. *)
Theorem method_touches_its_function_only
        (Call_toString : Call -> string) (fuel : nat) (file : string) (api : Api)
        (resource : Resource) (m : Method) (st st' : State) :
  method Call_toString fuel file api resource m st = Returned (tt, st') ->
  forall g, g <> inferMethodName resource m ->
    findFunc file g (gomodule st') = findFunc file g (gomodule st).
Proof.
  intros H g Hg. unfold method in H.
  unfold bind at 1, onModule at 1 in H. unfold bind at 1, onModule at 1 in H.
  unfold bind at 1, setFunc in H.
  cbn [gomodule console func options before after] in H.
  match type of H with ?c ?s = _ =>
    assert (K : keeps file (inferMethodName resource m) c)
  end.
  { destruct (keeps_collectors file (inferMethodName resource m)) as (Hb & Ho & Ha & Hc).
    apply keeps_bind; [now apply keeps_withFunc|]. intros _.
    apply keeps_bind; [apply keeps_lift|]. intros args.
    apply keeps_bind; [now apply keeps_withFunc|]. intros _.
    apply keeps_bind.
    { intros s a s' [= _ <-] Hf. cbn [func gomodule]. now split. }
    intros _.
    apply keeps_bind; [apply keeps_generateQueryParams|]. intros _.
    apply keeps_bind; [apply keeps_generateBodyParams|]. intros _.
    apply keeps_bind; [apply keeps_generateFuncReturns|]. intros _.
    apply keeps_getState_bind. intros s0 Hs0.
    apply keeps_bind; [apply keeps_getPathFmtCall|]. intros url.
    now apply keeps_withFunc. }
  destruct (K _ _ _ H eq_refl) as (_ & Hk). rewrite (Hk g Hg). cbn [gomodule].
  rewrite findFunc_File_func_other by exact Hg. apply findFunc_File_import.
Qed.

Lemma method_touches_its_function_only_witness :
  exists st',
    method printCall 0 "endpoints.go" emptyApi rUsers mDelete
           (stateFor "endpoints.go" "Ping")
    = Returned (tt, st')
    /\ findFunc "endpoints.go" "Ping" (gomodule st') = Some (mkFunc "Ping" None [] [] []).
Proof.
  destruct (method printCall 0 "endpoints.go" emptyApi rUsers mDelete
                   (stateFor "endpoints.go" "Ping")) as [[[] st']| e |] eqn:H;
    [| vm_compute in H; discriminate | vm_compute in H; discriminate].
  exists st'. split; [reflexivity|].
  rewrite (method_touches_its_function_only _ _ _ _ _ _ _ _ H "Ping") by discriminate.
  reflexivity.
Defined.

(* ================================================================== *)
(** * Further properties: JSON bodies *)
(* ================================================================== *)

Section JsonFacts.

Lemma findStruct_File_import (path sname imp : string) (m : GoModule) :
  findStruct path sname (File_import path imp m) = findStruct path sname m.
Proof.
  unfold findStruct, File_import. rewrite Module_file_withFile.
  now destruct (mem imp (imports (Module_file path m))).
Qed.

Lemma generateStruct_appendFields
      (fuel : nat) (file : string) (api : Api) (sname : string)
      (t : TypeDeclaration) (st : State) :
  generateStruct fuel file api sname t st
  = appendFields file sname
      (mkState (File_struct file sname (gomodule st)) (console st) (func st)
               (options st) (before st) (after st))
      (flattenFields fuel api t).
Proof. unfold generateStruct, bind, onModule. apply gen_appends_flattenFields. Qed.

End JsonFacts.

(** X19: for a method whose first body is JSON and names its type, the
    body step gives the function one more argument, [payload]; it
    writes the serialization before the request and the body options;
    and the type of the argument is the translated type of the body
    when the module knows an identifier of that name, else a struct
    named after the function with [Payload] appended, to which the
    flattened fields of the body are appended.  The step throws or
    exhausts its fuel exactly when, in the second case, the flattening
    of the body does. *)
Theorem generateBodyParams_json
        (fuel : nat) (file : string) (api : Api) (m : Method)
        (body : TypeDeclaration) (primary : string) (rest : list string)
        (st : State) (fn : Func) :
  firstBody m = Some body ->
  displayName body = Some "application/json" ->
  type_ body = primary :: rest ->
  findFunc file (func st) (gomodule st) = Some fn ->
  let payload := func st ++ "Payload" in
  let finished (ty : string) (st' : State) :=
    findFunc file (func st) (gomodule st')
    = Some (mkFunc (fn_name fn) (fn_receiver fn) (fn_args fn ++ [mkArg "payload" ty])%list
                   (fn_returns fn) (fn_body fn))
    /\ before st' = (before st ++ [marshalPayload])%list
    /\ options st' = (options st ++ [jsonBodyOptions])%list
    /\ after st' = after st in
  if Module_getIdentifier (translateTypeString primary) (gomodule st)
  then exists st',
         generateBodyParams fuel file api m st = Returned (tt, st')
         /\ finished (translateTypeString primary) st'
         /\ forall sname, findStruct file sname (gomodule st')
                          = findStruct file sname (gomodule st)
  else match flattenFields fuel api body with
       | Returned fs =>
           exists st',
             generateBodyParams fuel file api m st = Returned (tt, st')
             /\ finished payload st'
             /\ findStruct file payload (gomodule st')
                = Some (mkStruct
                          (match findStruct file payload (gomodule st) with
                           | Some s => s_name s
                           | None => payload
                           end)
                          (match findStruct file payload (gomodule st) with
                           | Some s => s_fields s
                           | None => []
                           end ++ fs)%list)
       | Thrown e => generateBodyParams fuel file api m st = Thrown e
       | OutOfFuel => generateBodyParams fuel file api m st = OutOfFuel
       end.
Proof.
  intros Hb Hk Hty Hfn payload finished. subst payload finished.
  assert (Hrun : generateBodyParams fuel file api m st
                 = (type <-
                      (if Module_getIdentifier (translateTypeString primary) (gomodule st)
                       then ret (translateTypeString primary)
                       else generateStruct fuel file api (func st ++ "Payload") body ;;
                            ret (func st ++ "Payload")) ;;
                    onModule (Func_arg file (func st) "payload" type) ;;
                    onModule (File_import file "bytes") ;;
                    onModule (File_import file "encoding/json") ;;
                    before_write marshalPayload ;;
                    options_write jsonBodyOptions) st).
  { unfold generateBodyParams. rewrite Hb, Hk, Hty. reflexivity. }
  rewrite Hrun. clear Hrun.
  destruct (Module_getIdentifier (translateTypeString primary) (gomodule st)).
  - eexists. split; [reflexivity|]. cbn [gomodule before options after].
    split; [split; [|now repeat split]|].
    + rewrite !findFunc_File_import. unfold Func_arg. now apply findFunc_addArgs.
    + intros sname. rewrite !findStruct_File_import. unfold Func_arg, Func_addArgs.
      apply findStruct_withFunc.
  - assert (Hgen : forall st0,
              generateStruct fuel file api (func st ++ "Payload") body st0
              = appendFields file (func st ++ "Payload")
                  (mkState (File_struct file (func st ++ "Payload") (gomodule st0))
                           (console st0) (func st0) (options st0) (before st0) (after st0))
                  (flattenFields fuel api body))
      by (intros st0; apply generateStruct_appendFields).
    destruct (flattenFields fuel api body) as [fs| e |]; cbn [appendFields] in Hgen;
      [| unfold bind at 1; unfold bind at 1; now rewrite Hgen
       | unfold bind at 1; unfold bind at 1; now rewrite Hgen].
    unfold bind at 1. unfold bind at 1. rewrite Hgen.
    eexists. split; [reflexivity|].
    unfold withFields. cbn [gomodule console func options before after].
    split; [split; [|now repeat split]|].
    + rewrite !findFunc_File_import. unfold Func_arg. apply findFunc_addArgs.
      now rewrite findFunc_fields, findFunc_File_struct.
    + rewrite !findStruct_File_import. unfold Func_arg, Func_addArgs.
      rewrite findStruct_withFunc, findStruct_fields, findStruct_File_struct.
      now destruct (findStruct file (func st ++ "Payload") (gomodule st)) as [[n old]|].
Qed.

Lemma generateBodyParams_json_witness :
  exists st',
    generateBodyParams 1 "endpoints.go" emptyApi mCreate
                       (stateFor "endpoints.go" "CreateUsers")
    = Returned (tt, st')
    /\ argsOf "endpoints.go" "CreateUsers" (gomodule st')
       = [mkArg "payload" "CreateUsersPayload"]
    /\ findStruct "endpoints.go" "CreateUsersPayload" (gomodule st')
       = Some (mkStruct "CreateUsersPayload"
                 [mkField "Text" "string" (Some ("json:" ++ JS.dq ++ "text" ++ JS.dq))]).
Proof.
  pose proof (generateBodyParams_json
                1 "endpoints.go" emptyApi mCreate jsonNote "object" []
                (stateFor "endpoints.go" "CreateUsers")
                (mkFunc "CreateUsers" None [] [] []) eq_refl eq_refl eq_refl eq_refl) as H.
  cbv zeta in H.
  change (Module_getIdentifier (translateTypeString "object")
            (gomodule (stateFor "endpoints.go" "CreateUsers"))) with false in H.
  cbv iota in H.
  change (flattenFields 1 emptyApi jsonNote)
    with (Returned [mkField "Text" "string" (Some ("json:" ++ JS.dq ++ "text" ++ JS.dq))])
    in H.
  cbv iota in H.
  destruct H as (st' & Hrun & (Hfn & _) & Hstruct).
  exists st'. split; [exact Hrun|]. split.
  - unfold argsOf. exact (eq_trans (f_equal (fun o => match o with
                                                      | Some fn => fn_args fn
                                                      | None => []
                                                      end) Hfn) eq_refl).
  - exact (eq_trans Hstruct eq_refl).
Defined.

(* ================================================================== *)
(** * Further properties: the two passes of the target *)
(* ================================================================== *)

Section ModelsFacts.

Lemma hasStruct_mem (sname : string) (f : File) :
  hasStruct sname f = mem sname (map s_name (structs f)).
Proof.
  unfold hasStruct, mem. induction (structs f) as [|s rest IH]; [reflexivity|].
  cbn [existsb map]. now rewrite IH, String.eqb_sym.
Qed.

Lemma structNames_File_struct (file sname : string) (m : GoModule) :
  structNames file (File_struct file sname m) = declare sname (structNames file m).
Proof.
  unfold File_struct, declare, structNames. rewrite hasStruct_mem.
  destruct (mem sname (map s_name (structs (Module_file file m)))); [reflexivity|].
  rewrite Module_file_register, Module_file_withFile. cbn [structs].
  now rewrite map_app.
Qed.

Lemma structNames_Struct_field (file sname : string) (fld : Field) (m : GoModule) :
  structNames file (Struct_field file sname fld m) = structNames file m.
Proof.
  unfold Struct_field, structNames. rewrite Module_file_withFile. cbn [structs].
  induction (structs (Module_file file m)) as [|s rest IH]; [reflexivity|].
  cbn [map]. rewrite IH. now destruct (String.eqb (s_name s) sname).
Qed.

Lemma structNames_fields (file sname : string) (flds : list Field) :
  forall m,
    structNames file (fold_left (fun m fld => Struct_field file sname fld m) flds m)
    = structNames file m.
Proof.
  induction flds as [|fld rest IH]; intros m; cbn [fold_left]; [reflexivity|].
  now rewrite IH, structNames_Struct_field.
Qed.

End ModelsFacts.

(** X20: the model pass declares a struct for the object types and for
    nothing else: whenever it returns, the structs of the file are those
    there were, followed by the names of the API's types that have
    properties, in the order of the API, each name once however often
    it is declared; a type without properties adds no struct. *)
Theorem createModels_struct_names (fuel : nat) (api : Api) (file : string) :
  forall st st',
    createModels fuel api file st = Returned (tt, st') ->
    structNames file (gomodule st')
    = fold_left (fun names t =>
                   match properties t with
                   | Some _ => declare (name t) names
                   | None => names
                   end)
                (types api) (structNames file (gomodule st)).
Proof.
  unfold createModels. induction (types api) as [|t ts IH]; intros st st' H.
  - cbn [forEach ret] in H. now injection H as <-.
  - cbn [forEach fold_left] in H |- *.
    apply bind_returned in H as (u & st1 & Ht & Hts).
    rewrite (IH _ _ Hts). f_equal.
    destruct (properties t) as [props|].
    + rewrite generateStruct_appendFields in Ht.
      destruct (flattenFields fuel api t) as [fs| e |]; cbn [appendFields] in Ht;
        try discriminate.
      injection Ht as _ <-. unfold withFields. cbn [gomodule].
      now rewrite structNames_fields, structNames_File_struct.
    + cbn [ret] in Ht. now injection Ht as _ <-.
Qed.

Lemma createModels_struct_names_witness :
  exists st',
    createModels 3 modelApi "models.go" (initialState emptyModule) = Returned (tt, st')
    /\ structNames "models.go" (gomodule st') = ["User"; "Base"].
Proof.
  destruct (createModels 3 modelApi "models.go" (initialState emptyModule))
    as [[[] st']| e |] eqn:H;
    [| vm_compute in H; discriminate | vm_compute in H; discriminate].
  exists st'. split; [reflexivity|].
  rewrite (createModels_struct_names _ _ _ _ _ H). reflexivity.
Defined.

Section GrowthFacts.

Variable file : string.

Lemma grows_refl (st : State) : grows file st st.
Proof. now intros g H. Qed.

Lemma grows_trans (st1 st2 st3 : State) :
  grows file st1 st2 -> grows file st2 st3 -> grows file st1 st3.
Proof. intros H12 H23 g H. now apply H23, H12. Qed.

Lemma growing_ret {A : Type} (a : A) : keepsRel (grows file) (ret a).
Proof. intros st a' st' [= _ <-]. apply grows_refl. Qed.

Lemma growing_lift {A : Type} (x : outcome A) : keepsRel (grows file) (lift x).
Proof.
  intros st a st' H. unfold lift in H. destruct x; cbn [obind] in H; try discriminate.
  injection H as _ <-. apply grows_refl.
Qed.

Lemma growing_getState : keepsRel (grows file) getState.
Proof. intros st a st' [= _ <-]. apply grows_refl. Qed.

Lemma growing_bind {A B : Type} (c : Gen A) (k : A -> Gen B) :
  keepsRel (grows file) c -> (forall a, keepsRel (grows file) (k a)) ->
  keepsRel (grows file) (bind c k).
Proof.
  intros Hc Hk st b st' H. apply bind_returned in H as (a & st1 & H1 & H2).
  exact (grows_trans _ _ _ (Hc _ _ _ H1) (Hk a _ _ _ H2)).
Qed.

Lemma growing_forEach {A : Type} (l : list A) (body : A -> Gen unit) :
  (forall x, keepsRel (grows file) (body x)) -> keepsRel (grows file) (forEach l body).
Proof.
  intros Hb. induction l as [|x rest IH]; cbn [forEach]; [apply growing_ret|].
  apply growing_bind; [apply Hb | intros _; exact IH].
Qed.

Lemma growing_onModule (g : GoModule -> GoModule) :
  (forall m h, findFunc file h m <> None -> findFunc file h (g m) <> None) ->
  keepsRel (grows file) (onModule g).
Proof. intros Hg st a st' [= _ <-] h Hh. cbn [gomodule]. now apply Hg. Qed.

Lemma growing_same (c : Gen unit) :
  (forall st a st', c st = Returned (a, st') -> gomodule st' = gomodule st) ->
  keepsRel (grows file) c.
Proof. intros Hc st a st' H g Hg. now rewrite (Hc _ _ _ H). Qed.

Lemma growing_collectors :
  (forall d, keepsRel (grows file) (before_write d))
  /\ (forall d, keepsRel (grows file) (options_write d))
  /\ (forall d, keepsRel (grows file) (after_write d))
  /\ (forall msg obj, keepsRel (grows file) (console_error msg obj))
  /\ (forall fname, keepsRel (grows file) (setFunc fname))
  /\ keepsRel (grows file) resetCollectors.
Proof.
  split; [|split; [|split; [|split; [|split]]]]; intros;
    apply growing_same; intros st a st' [= _ <-]; reflexivity.
Qed.

Lemma growing_import (imp : string) : keepsRel (grows file) (onModule (File_import file imp)).
Proof. apply growing_onModule. intros m h. now rewrite findFunc_File_import. Qed.

Lemma growing_struct (sname : string) :
  keepsRel (grows file) (onModule (File_struct file sname)).
Proof. apply growing_onModule. intros m h. now rewrite findFunc_File_struct. Qed.

Lemma growing_field (sname : string) (fld : Field) :
  keepsRel (grows file) (onModule (Struct_field file sname fld)).
Proof. apply growing_onModule. intros m h. now rewrite findFunc_Struct_field. Qed.

Lemma findFunc_withFunc_present (fname h : string) (k : Func -> Func) (m : GoModule) :
  (forall fn, fn_name (k fn) = fn_name fn) ->
  findFunc file h m <> None -> findFunc file h (withFunc file fname k m) <> None.
Proof.
  intros Hk. destruct (String.eqb_spec h fname) as [->|Hne].
  - rewrite findFunc_withFunc by exact Hk. now destruct (findFunc file fname m).
  - now rewrite findFunc_withFunc_other.
Qed.

Lemma growing_withFunc (fname : string) (k : Func -> Func) :
  (forall fn, fn_name (k fn) = fn_name fn) ->
  keepsRel (grows file) (onModule (withFunc file fname k)).
Proof. intros Hk. apply growing_onModule. intros m h. now apply findFunc_withFunc_present. Qed.

Lemma findFunc_File_func_same (fname : string) (m : GoModule) :
  findFunc file fname (File_func file fname m) <> None.
Proof.
  unfold File_func. destruct (hasFunc fname (Module_file file m)) eqn:E.
  - unfold hasFunc in E. unfold findFunc.
    induction (funcs (Module_file file m)) as [|fn rest IH]; [discriminate|].
    cbn [existsb find] in E |- *.
    destruct (String.eqb (fn_name fn) fname); [discriminate | now apply IH].
  - unfold findFunc. rewrite Module_file_register, Module_file_withFile. cbn [funcs].
    induction (funcs (Module_file file m)) as [|fn rest IH]; cbn [app find fn_name].
    + now rewrite String.eqb_refl.
    + destruct (String.eqb (fn_name fn) fname); [discriminate | exact IH].
Qed.

Lemma growing_func (fname : string) : keepsRel (grows file) (onModule (File_func file fname)).
Proof.
  apply growing_onModule. intros m h Hh.
  destruct (String.eqb_spec h fname) as [->|Hne].
  - apply findFunc_File_func_same.
  - now rewrite findFunc_File_func_other.
Qed.

Lemma growing_gen (api : Api) (sname : string) (fuel : nat) :
  forall t, keepsRel (grows file) (gen fuel file api sname t).
Proof.
  induction fuel as [|fuel IH]; intros t; cbn [gen].
  - intros st a st' H. discriminate.
  - destruct (properties t) as [props|]; [|apply growing_ret].
    apply growing_bind.
    + apply growing_forEach. intros prop. apply growing_bind; [apply growing_lift|].
      intros ty. apply growing_field.
    + intros _. apply growing_forEach. intros sub.
      destruct (find _ (types api)); [apply IH | apply growing_ret].
Qed.

Ltac growing :=
  repeat first
    [ apply growing_ret | apply growing_lift | apply growing_getState
    | apply growing_import | apply growing_struct | apply growing_field
    | apply growing_func | apply growing_gen
    | apply (proj1 growing_collectors)
    | apply (proj1 (proj2 growing_collectors))
    | apply (proj1 (proj2 (proj2 growing_collectors)))
    | apply (proj1 (proj2 (proj2 (proj2 growing_collectors))))
    | apply (proj1 (proj2 (proj2 (proj2 (proj2 growing_collectors)))))
    | apply (proj2 (proj2 (proj2 (proj2 (proj2 growing_collectors)))))
    | apply growing_withFunc; reflexivity
    | apply growing_forEach; intros ?
    | apply growing_bind; [|intros ?]
    | match goal with
      | |- keepsRel _ (match ?x with _ => _ end) => destruct x
      end ].

Lemma growing_steps (Call_toString : Call -> string) (fuel : nat) (api : Api)
      (resource : Resource) (m : Method) :
  keepsRel (grows file) (generateQueryParams file m)
  /\ keepsRel (grows file) (generateBodyParams fuel file api m)
  /\ keepsRel (grows file) (generateFuncReturns file m)
  /\ keepsRel (grows file) (getPathFmtCall Call_toString file resource).
Proof.
  unfold generateQueryParams, generateBodyParams, generateFuncReturns, getPathFmtCall,
    generateStruct.
  split; [|split; [|split]]; growing.
Qed.

(** Once an operation is generated, its function is in the file, and so
    is every function that was there. *)
Lemma method_declares (Call_toString : Call -> string) (fuel : nat) (api : Api)
      (resource : Resource) (m : Method) (st st' : State) :
  method Call_toString fuel file api resource m st = Returned (tt, st') ->
  findFunc file (inferMethodName resource m) (gomodule st') <> None
  /\ grows file st st'.
Proof.
  intros H. unfold method in H.
  destruct (growing_steps Call_toString fuel api resource m) as (Hq & Hb & Hr & Hp).
  apply bind_returned in H as (u1 & st1 & H1 & H).
  apply bind_returned in H as (u2 & st2 & H2 & H).
  assert (K : grows file st2 st').
  { match type of H with
    | ?c st2 = _ => assert (Krest : keepsRel (grows file) c)
    end.
    { cbv beta. growing; assumption. }
    exact (Krest _ _ _ H). }
  injection H1 as _ <-. injection H2 as _ <-. cbn [gomodule] in K.
  split.
  - apply K. cbn [gomodule]. apply findFunc_File_func_same.
  - intros g Hg. apply K. cbn [gomodule].
    apply (growing_func (inferMethodName resource m)
             (mkState (File_import file "net/http" (gomodule st)) (console st) (func st)
                      (options st) (before st) (after st)) tt _ eq_refl).
    cbn [gomodule]. now rewrite findFunc_File_import.
Qed.

End GrowthFacts.

Section EndpointsFacts.

Variables (Call_toString : Call -> string) (fuel : nat) (file : string) (api : Api).

(** Induction on a resource with the sub-resources as hypotheses. *)
Lemma Resource_nested_ind (P : Resource -> Prop) :
  (forall uri params ms subs, Forall P subs -> P (mkResource uri params ms subs)) ->
  forall r, P r.
Proof.
  intros H. fix IH 1. intros [uri params ms subs]. apply H.
  revert subs. fix IHsubs 1. intros [|r rest]; constructor; [apply IH | apply IHsubs].
Qed.

Lemma forEach_methods_declare (resource : Resource) (ms : list Method) :
  forall st st',
    forEach ms (method Call_toString fuel file api resource) st = Returned (tt, st') ->
    grows file st st'
    /\ forall m, In m ms ->
         findFunc file (inferMethodName resource m) (gomodule st') <> None.
Proof.
  induction ms as [|m0 rest IH]; intros st st' H.
  - cbn [forEach ret] in H. injection H as <-. split; [apply grows_refl | intros m []].
  - cbn [forEach] in H. apply bind_returned in H as ([] & st1 & H0 & Hrest).
    destruct (method_declares _ _ _ _ _ _ _ _ H0) as (Hdecl & Hgrow).
    destruct (IH _ _ Hrest) as (Hgrow' & Hall).
    split; [exact (grows_trans _ _ _ _ Hgrow Hgrow')|].
    intros m [<-|Hin]; [now apply Hgrow' | now apply Hall].
Qed.

Lemma generateMethods_declares (resource : Resource) :
  declaresAll Call_toString fuel file api resource.
Proof.
  induction resource as [uri params ms subs IHsubs] using Resource_nested_ind.
  intros st st' H. cbn [generateMethods] in H.
  apply bind_returned in H as ([] & st1 & Hms & Hsubs).
  destruct (forEach_methods_declare _ _ _ _ Hms) as (Hgrow1 & Hown).
  cbn [allOperations].
  match type of Hsubs with
  | ?loop subs st1 = _ =>
      match goal with
      | |- _ /\ (forall r m, In (r, m) (_ ++ ?ops subs)%list -> _) =>
          assert (Hloop : forall st2,
                    loop subs st2 = Returned (tt, st') ->
                    grows file st2 st'
                    /\ forall r m, In (r, m) (ops subs) ->
                         findFunc file (inferMethodName r m) (gomodule st') <> None)
      end
  end.
  { clear Hsubs Hms Hgrow1 Hown. induction IHsubs as [|r rest Hr Hrest IH]; intros st2 H.
    - cbn [ret] in H. injection H as <-. split; [apply grows_refl | intros r m []].
    - apply bind_returned in H as ([] & st3 & Hr3 & Hrest3).
      destruct (Hr _ _ Hr3) as (Hg3 & Hops3).
      destruct (IH _ Hrest3) as (Hg' & Hops').
      split; [exact (grows_trans _ _ _ _ Hg3 Hg')|].
      intros r0 m Hin. apply in_app_or in Hin as [Hin|Hin];
        [now apply Hg', Hops3 | now apply Hops']. }
  destruct (Hloop _ Hsubs) as (Hgrow2 & Hsub).
  split; [exact (grows_trans _ _ _ _ Hgrow1 Hgrow2)|].
  intros r m Hin. apply in_app_or in Hin as [Hin|Hin].
  - apply in_map_iff in Hin as (m0 & [= <- <-] & Hm0). now apply Hgrow2, Hown.
  - now apply Hsub.
Qed.

End EndpointsFacts.

(** X21: the endpoint pass declares a function for every operation of
    the API: whenever it returns, the file holds, for every method of
    every resource and sub-resource at any depth, a function under the
    name inferred for that resource and method (operations that infer
    one name share the function); and no function that was in the file
    before is lost. *)
Theorem createEndpoints_declares_every_operation
        (Call_toString : Call -> string) (fuel : nat) (api : Api) (file : string)
        (st st' : State) :
  createEndpoints Call_toString fuel api file st = Returned (tt, st') ->
  (forall root r m,
     In root (a_resources api) -> In (r, m) (allOperations root) ->
     findFunc file (inferMethodName r m) (gomodule st') <> None)
  /\ forall g, findFunc file g (gomodule st) <> None ->
               findFunc file g (gomodule st') <> None.
Proof.
  unfold createEndpoints. revert st.
  induction (a_resources api) as [|root rest IH]; intros st H.
  - cbn [forEach ret] in H. injection H as <-. split; [intros root r m [] | now intros g].
  - cbn [forEach] in H. apply bind_returned in H as ([] & st1 & Hroot & Hrest).
    destruct (generateMethods_declares _ _ _ _ _ _ _ Hroot) as (Hgrow & Hops).
    destruct (IH _ Hrest) as (Hall & Hgrow').
    split.
    + intros root0 r m [<-|Hin] Hop; [now apply Hgrow', Hops | now apply (Hall root0)].
    + intros g Hg. now apply Hgrow', Hgrow.
Qed.

Lemma createEndpoints_declares_every_operation_witness :
  exists st',
    createEndpoints printCall 0 (mkApi [] [rCollection]) "endpoints.go"
                    (initialState emptyModule)
    = Returned (tt, st')
    /\ findFunc "endpoints.go" "GetUser" (gomodule st') <> None
    /\ findFunc "endpoints.go" "DeleteUsers" (gomodule st') <> None.
Proof.
  destruct (createEndpoints printCall 0 (mkApi [] [rCollection]) "endpoints.go"
                            (initialState emptyModule)) as [[[] st']| e |] eqn:H;
    [| vm_compute in H; discriminate | vm_compute in H; discriminate].
  exists st'. split; [reflexivity|].
  destruct (createEndpoints_declares_every_operation _ _ _ _ _ _ H) as (Hall & _).
  split.
  - apply (Hall rCollection rCollection mList); [now left | now left].
  - apply (Hall rCollection rCollection mDelete); [now left | right; now left].
Defined.
